(** * The crawl orchestration of the SEO crawler service

    A shallow embedding of [src/services/seo-crawler-service.ts]:
    [analyzePage]'s link classification, [fetchSitemap], [fetchRobotsTxt]
    and [crawlSite].

    Conventions of the embedding.
    - JavaScript strings are [string]s read as ASCII text; [trim],
      [toLowerCase], [startsWith], [substring], [includes], [split] and
      [parseInt] are written out below with their behaviour on ASCII.
    - A [Set<string>] is the list of its members in insertion order, without
      repetition; [Array.from] of it is that list.
    - JavaScript numbers that hold counts and delays are integers ([Z]).
      [parseInt] yields [None] for NaN and otherwise the double nearest to
      the integer it read, ties going to the even significand; [2^1024]
      stands for [Infinity], its opposite for [-Infinity].
    - Everything the service obtains from Puppeteer, cheerio and the WHATWG
      [URL] class is a field of [Platform]: the code under study only calls
      them. A computation is a function of the platform's world that returns
      its value, the next world and the events it emitted (page loads,
      politeness sleeps and [console.error] reports), in order.
      [console.log] lines are not part of the model.
    - An exception is a [None] result; [try]/[catch] is a [match] on it.
    - [fetchSitemap] recurses without a guard in the source: the embedding
      takes fuel and answers [None] when it runs out. *)

From Stdlib Require Import String Ascii List ZArith Lia Bool Arith.
From Stdlib Require Import DecimalString DecimalNat ListDec.
Import ListNotations.
Local Open Scope string_scope.
Local Open Scope list_scope.
Local Open Scope Z_scope.

(** ** JavaScript string primitives *)

Module JS.

(** [StrWhiteSpaceChar] restricted to ASCII: TAB, LF, VT, FF, CR, SP. *)
Definition isWhiteSpace (c : ascii) : bool :=
  let n := nat_of_ascii c in
  (Nat.leb 9 n && Nat.leb n 13) || Nat.eqb n 32.

Fixpoint trimStart (s : string) : string :=
  match s with
  | EmptyString => EmptyString
  | String c s' => if isWhiteSpace c then trimStart s' else s
  end.

Fixpoint trimEnd (s : string) : string :=
  match s with
  | EmptyString => EmptyString
  | String c s' =>
      let t := trimEnd s' in
      if isWhiteSpace c && (t =? EmptyString)%string then EmptyString
      else String c t
  end.

(** [String.prototype.trim] *)
Definition trim (s : string) : string := trimEnd (trimStart s).

Definition lowerChar (c : ascii) : ascii :=
  let n := nat_of_ascii c in
  if Nat.leb 65 n && Nat.leb n 90 then ascii_of_nat (n + 32) else c.

(** [String.prototype.toLowerCase] *)
Fixpoint toLowerCase (s : string) : string :=
  match s with
  | EmptyString => EmptyString
  | String c s' => String (lowerChar c) (toLowerCase s')
  end.

(** [s.startsWith(p)] *)
Definition startsWith (s p : string) : bool := String.prefix p s.

(** [s.substring(n)] *)
Fixpoint substring (n : nat) (s : string) : string :=
  match n, s with
  | O, _ => s
  | S n', String _ s' => substring n' s'
  | S _, EmptyString => EmptyString
  end.

(** [s.includes(p)] for a non-empty [p] *)
Definition includes (s p : string) : bool :=
  match String.index 0 p s with Some _ => true | None => false end.

Definition LF : ascii := ascii_of_nat 10.

(** [s.split('\n')]: never empty, the empty string splits into [[""]]. *)
Fixpoint splitLines (s : string) : list string :=
  match s with
  | EmptyString => [EmptyString]
  | String c s' =>
      match splitLines s' with
      | [] => [EmptyString]
      | l :: ls =>
          if Ascii.eqb c LF then EmptyString :: l :: ls
          else String c l :: ls
      end
  end.

(** The value of a digit in radix 10 or 16. *)
Definition digitOf (radix : Z) (c : ascii) : option Z :=
  let n := Z.of_nat (nat_of_ascii c) in
  if (48 <=? n) && (n <=? 57) then Some (n - 48)
  else if (radix =? 16) && (97 <=? n) && (n <=? 102) then Some (n - 87)
  else if (radix =? 16) && (65 <=? n) && (n <=? 70) then Some (n - 55)
  else None.

(** The longest prefix of digits, [None] when there is none. *)
Fixpoint parseDigits (radix : Z) (s : string) (acc : option Z) : option Z :=
  match s with
  | EmptyString => acc
  | String c s' =>
      match digitOf radix c with
      | Some d =>
          parseDigits radix s'
            (Some (radix * match acc with Some a => a | None => 0 end + d))
      | None => acc
      end
  end.

(** [Infinity] as this file writes it: the first power of two that is no
    double. *)
Definition Infinity : Z := 2 ^ 1024.

(** The double nearest to a natural number: numbers of 53 bits or fewer
    are doubles; a longer one keeps its 53 leading bits, rounded to
    nearest with ties to the even significand, and overflows to
    [Infinity]. *)
Definition nearestDouble (m : Z) : Z :=
  let bits := Z.log2 m + 1 in
  if bits <=? 53 then m
  else
    let shift := bits - 53 in
    let q := Z.shiftr m shift in
    let r := m - Z.shiftl q shift in
    let half := Z.shiftl 1 (shift - 1) in
    let q' := if (half <? r) || ((r =? half) && Z.odd q) then q + 1 else q in
    let rounded := Z.shiftl q' shift in
    if Infinity <=? rounded then Infinity else rounded.

(** The Number value of a mathematical integer. *)
Definition toNumber (z : Z) : Z :=
  if z <? 0 then - nearestDouble (- z) else nearestDouble z.

(** [parseInt(s)] without a radix: leading white space, a sign, an optional
    [0x] prefix, then digits, whose signed value is turned into a Number;
    [None] stands for NaN. *)
Definition parseInt (s : string) : option Z :=
  let s1 := trimStart s in
  let '(sign, s2) :=
    match s1 with
    | String "-"%char r => (-1, r)
    | String "+"%char r => (1, r)
    | _ => (1, s1)
    end in
  let '(radix, s3) :=
    if startsWith s2 "0x" || startsWith s2 "0X" then (16, substring 2 s2)
    else (10, s2) in
  option_map (fun mathInt => toNumber (sign * mathInt))
             (parseDigits radix s3 None).

(** [x || null] on a number: NaN and 0 are falsy. *)
Definition orNull (x : option Z) : option Z :=
  match x with
  | Some 0 => None
  | _ => x
  end.

(** Truthiness of a [number | null]. *)
Definition truthy (x : option Z) : bool :=
  match x with
  | Some d => negb (d =? 0)
  | None => false
  end.

(** [Set.prototype.has] and [Set.prototype.add] on insertion-ordered sets. *)
Definition Set_has (s : list string) (x : string) : bool :=
  existsb (String.eqb x) s.

Definition Set_add (s : list string) (x : string) : list string :=
  if Set_has s x then s else s ++ [x].

(** [new Set(l)], and [l.forEach(u => s.add(u))] *)
Definition Set_addAll (s : list string) (l : list string) : list string :=
  fold_left Set_add l s.

End JS.

(** ** Robots policy: the parsing loop of [fetchRobotsTxt] *)

Record RobotsTxt := mkRobotsTxt {
  sitemaps : list string;
  disallowed : list string;
  crawlDelay : option Z
}.

Definition emptyRobotsTxt : RobotsTxt := mkRobotsTxt [] [] None.

(** One turn of [for (const line of lines)]. *)
Definition robotsLine (r : RobotsTxt) (line : string) : RobotsTxt :=
  let trimmed := JS.trim line in
  if JS.startsWith (JS.toLowerCase trimmed) "sitemap:" then
    mkRobotsTxt (sitemaps r ++ [JS.trim (JS.substring 8 trimmed)])
                (disallowed r) (crawlDelay r)
  else if JS.startsWith (JS.toLowerCase trimmed) "disallow:" then
    mkRobotsTxt (sitemaps r)
                (disallowed r ++ [JS.trim (JS.substring 9 trimmed)])
                (crawlDelay r)
  else if JS.startsWith (JS.toLowerCase trimmed) "crawl-delay:" then
    mkRobotsTxt (sitemaps r) (disallowed r)
                (JS.orNull (JS.parseInt (JS.trim (JS.substring 12 trimmed))))
  else r.

Definition parseRobotsLines (lines : list string) : RobotsTxt :=
  fold_left robotsLine lines emptyRobotsTxt.

(** The body of the [try] once the document text is at hand. *)
Definition parseRobotsTxt (html : string) : RobotsTxt :=
  parseRobotsLines (JS.splitLines html).

(** ** Data model *)

Module ImageInfo.
Record t := mk {
  src : string;
  alt : option string;
  width : option Z;
  height : option Z
}.
End ImageInfo.

Module LinkInfo.
Record t := mk {
  href : string;
  text : string;
  isInternal : bool;
  isNofollow : bool
}.
End LinkInfo.

(** The fields of a [PageAnalysis] that [analyzePage] reads off the document
    with cheerio selectors and that the crawl never looks at. *)
Record PageContent := mkPageContent {
  title : option string;
  metaDescription : option string;
  h1Tags : list string;
  h2Tags : list string;
  wordCount : Z;
  images : list ImageInfo.t;
  canonical : option string;
  ogTags : list (string * string);
  twitterTags : list (string * string);
  schemaMarkup : list string
}.

Module PageAnalysis.
Record t := mk {
  url : string;
  content : PageContent;
  links : list LinkInfo.t;
  loadTime : Z;
  statusCode : Z
}.
End PageAnalysis.

Module CrawlConfig.
Record t := mk {
  url : string;
  maxPages : option Z;
  followSitemap : option bool;
  respectRobotsTxt : option bool;
  waitForSelector : option string;
  timeout : option Z
}.
End CrawlConfig.

(** ** What the platform provides *)

(** What [fetchPage] resolves to. *)
Record FetchResult := mkFetchResult {
  html : string;
  fr_statusCode : Z;
  fr_loadTime : Z
}.

(** The parts of a WHATWG [URL] object the service reads. *)
Module URL.
Record t := mk {
  hostname : string;
  origin : string;
  href : string
}.
End URL.

(** An [<a>] element as the selectors see it: [attr('href')], [text()],
    [attr('rel')]; a missing attribute is [None]. *)
Record Anchor := mkAnchor {
  attr_href : option string;
  anchor_text : string;
  attr_rel : option string
}.

(** A sitemap document as the selectors see it: the texts of
    [$('sitemap loc')] and [$('url loc')], and [$('sitemap').length]. *)
Record SitemapDoc := mkSitemapDoc {
  sitemap_loc : list string;
  url_loc : list string;
  sitemap_length : nat
}.

Record Platform := mkPlatform {
  World : Type;
  (** the browser session of [fetchPage]: [goto], the waits and [content];
      [None] when it throws (the page is closed on both paths) *)
  browse : string -> option string -> Z -> World ->
           option FetchResult * World;
  (** [new URL(input, base)]; [None] when it throws *)
  URL_new : string -> option string -> option URL.t;
  (** [cheerio.load(html)] and the selectors of [analyzePage] *)
  cheerio_anchors : string -> list Anchor;
  cheerio_content : string -> PageContent;
  (** [cheerio.load(html, { xmlMode: true })] and the selectors of
      [fetchSitemap] *)
  cheerio_xml : string -> SitemapDoc
}.

(** What a run lets an observer see. *)
Inductive Event :=
| Fetch (url : string)
| Sleep (ms : Z)
| ErrorSitemap
| ErrorRobots
| ErrorCrawling (url : string).

(** How a call that may recurse without bound ends. *)
Inductive Outcome (A : Type) :=
| Returned (a : A)
| Threw
| Diverged.
Arguments Returned {A} a.
Arguments Threw {A}.
Arguments Diverged {A}.

(** The local variables of [crawlSite] that its loop updates. *)
Record Frontier := mkFrontier {
  results : list PageAnalysis.t;
  urlsToCrawl : list string;
  crawledUrls : list string
}.

(** A finished crawl: [Array.from(urlsToCrawl)] as the loop took it, and the
    variables when the loop ended. *)
Record CrawlRun := mkCrawlRun {
  snapshot : list string;
  final : Frontier
}.

(** [value || ''] on an attribute *)
Definition orEmpty (a : option string) : string :=
  match a with Some s => s | None => EmptyString end.

(** The delay of one politeness sleep, in milliseconds: the number handed
    to [setTimeout]. The product is the exact one, which is the source's
    while it stays below [2^53]. *)
Definition politenessDelay (robotsTxt : RobotsTxt) : Z :=
  match crawlDelay robotsTxt with
  | Some d => if JS.truthy (Some d) then d * 1000 else 1000
  | None => 1000
  end.

Section Service.

Variable P : Platform.

(** *** Computations over the platform's world *)

Record Out (A : Type) := mkOut {
  value : A;
  after : World P;
  trace : list Event
}.
Arguments mkOut {A} _ _ _.
Arguments value {A} _.
Arguments after {A} _.
Arguments trace {A} _.

Definition M (A : Type) : Type := World P -> Out A.

Definition ret {A} (a : A) : M A := fun w => mkOut a w [].

Definition bind {A B} (m : M A) (k : A -> M B) : M B :=
  fun w =>
    let o1 := m w in
    let o2 := k (value o1) (after o1) in
    mkOut (value o2) (after o2) (trace o1 ++ trace o2).

Definition emit (e : Event) : M unit := fun w => mkOut tt w [e].

Notation "x <- m ;; k" := (bind m (fun x => k))
  (at level 61, m at next level, right associativity).
Notation "m ;;; k" := (bind m (fun _ => k))
  (at level 61, right associativity).

(** *** [fetchPage] *)
Definition fetchPage (url : string) (waitForSelector : option string)
  (timeout : Z) : M (option FetchResult) :=
  fun w =>
    let '(r, w') := browse P url waitForSelector timeout w in
    mkOut r w' [Fetch url].

(** *** [analyzePage]: link classification *)
Definition isInternalLink (baseDomain url href : string) : bool :=
  match URL_new P href (Some url) with
  | Some linkUrl => (URL.hostname linkUrl =? baseDomain)%string
  | None => JS.startsWith href "/" || negb (JS.startsWith href "http")
  end.

Definition linkInfo (baseDomain url : string) (el : Anchor) : LinkInfo.t :=
  let href := orEmpty (attr_href el) in
  let text := JS.trim (anchor_text el) in
  let rel := orEmpty (attr_rel el) in
  LinkInfo.mk href text (isInternalLink baseDomain url href)
              (JS.includes rel "nofollow").

Definition analyzePage (url : string) (waitForSelector : option string)
  : M (option PageAnalysis.t) :=
  r <- fetchPage url waitForSelector 30000 ;;
  match r with
  | None => ret None
  | Some f =>
      match URL_new P url None with
      | None => ret None
      | Some pageUrl =>
          let baseDomain := URL.hostname pageUrl in
          ret (Some (PageAnalysis.mk url
                       (cheerio_content P (html f))
                       (map (linkInfo baseDomain url)
                            (cheerio_anchors P (html f)))
                       (fr_loadTime f) (fr_statusCode f)))
      end
  end.

(** *** [fetchSitemap] *)

(** [for (const childSitemap of urls)] with the recursive call as [self];
    [None] when a child runs out of fuel. *)
Fixpoint fetchChildren (self : string -> M (option (list string)))
  (urls : list string) (childUrls : list string) : M (option (list string)) :=
  match urls with
  | [] => ret (Some childUrls)
  | childSitemap :: rest =>
      r <- self childSitemap ;;
      match r with
      | None => ret None
      | Some childSitemapUrls =>
          fetchChildren self rest (childUrls ++ childSitemapUrls)
      end
  end.

Fixpoint fetchSitemap (fuel : nat) (sitemapUrl : string)
  : M (option (list string)) :=
  match fuel with
  | O => ret None
  | S fuel' =>
      r <- fetchPage sitemapUrl None 30000 ;;
      match r with
      | None => emit ErrorSitemap ;;; ret (Some [])
      | Some f =>
          let doc := cheerio_xml P (html f) in
          let urls := map JS.trim (sitemap_loc doc)
                      ++ map JS.trim (url_loc doc) in
          if Nat.ltb 0 (sitemap_length doc) then
            fetchChildren (fetchSitemap fuel') urls []
          else ret (Some urls)
      end
  end.

(** *** [fetchRobotsTxt] *)
Definition fetchRobotsTxt (baseUrl : string) : M RobotsTxt :=
  match URL_new P "/robots.txt" (Some baseUrl) with
  | None => emit ErrorRobots ;;; ret emptyRobotsTxt
  | Some robotsUrl =>
      r <- fetchPage (URL.href robotsUrl) None 30000 ;;
      match r with
      | None => emit ErrorRobots ;;; ret emptyRobotsTxt
      | Some f => ret (parseRobotsTxt (html f))
      end
  end.

(** *** [crawlSite] *)

(** The body of the [forEach] over the links that pass the filter. *)
Definition offerLink (pageUrl : string) (crawledUrls : list string)
  (urlsToCrawl : list string) (link : LinkInfo.t) : list string :=
  match URL_new P (LinkInfo.href link) (Some pageUrl) with
  | Some absoluteUrl =>
      if negb (JS.Set_has crawledUrls (URL.href absoluteUrl))
      then JS.Set_add urlsToCrawl (URL.href absoluteUrl)
      else urlsToCrawl
  | None => urlsToCrawl
  end.

Definition followed (link : LinkInfo.t) : bool :=
  LinkInfo.isInternal link && negb (LinkInfo.isNofollow link).

(** The statements of the [try] block after [analyzePage] returned, up to
    the sleep: push the result, mark the page, offer its links. *)
Definition recordPage (pageUrl : string) (analysis : PageAnalysis.t)
  (st : Frontier) : Frontier :=
  let crawled := JS.Set_add (crawledUrls st) pageUrl in
  mkFrontier (results st ++ [analysis])
             (fold_left (offerLink pageUrl crawled)
                        (filter followed (PageAnalysis.links analysis))
                        (urlsToCrawl st))
             crawled.

(** [for (const pageUrl of Array.from(urlsToCrawl))], [pages] being what is
    left of the array. *)
Fixpoint crawlLoop (robotsTxt : RobotsTxt) (maxPages : Z)
  (pages : list string) (st : Frontier) : M Frontier :=
  match pages with
  | [] => ret st
  | pageUrl :: rest =>
      if Z.of_nat (length (crawledUrls st)) >=? maxPages then ret st
      else if JS.Set_has (crawledUrls st) pageUrl then
        crawlLoop robotsTxt maxPages rest st
      else
        r <- analyzePage pageUrl None ;;
        match r with
        | Some analysis =>
            emit (Sleep (politenessDelay robotsTxt)) ;;;
            crawlLoop robotsTxt maxPages rest (recordPage pageUrl analysis st)
        | None =>
            emit (ErrorCrawling pageUrl) ;;;
            crawlLoop robotsTxt maxPages rest st
        end
  end.

(** [for (const sitemapUrl of sitemapUrls)]; [None] when a sitemap runs out
    of fuel. *)
Fixpoint seedFromSitemaps (fuel : nat) (sitemapUrls : list string)
  (urlsToCrawl : list string) : M (option (list string)) :=
  match sitemapUrls with
  | [] => ret (Some urlsToCrawl)
  | sitemapUrl :: rest =>
      r <- fetchSitemap fuel sitemapUrl ;;
      match r with
      | None => ret None
      | Some urls =>
          seedFromSitemaps fuel rest (JS.Set_addAll urlsToCrawl urls)
      end
  end.

Definition orDefault {A} (d : A) (o : option A) : A :=
  match o with Some a => a | None => d end.

(** The seeding of [urlsToCrawl]: [new Set([url])], then the sitemaps when
    [followSitemap] is set. *)
Definition seedFrontier (fuel : nat) (config : CrawlConfig.t)
  (baseUrl : string) (robotsTxt : RobotsTxt) : M (option (list string)) :=
  let url := CrawlConfig.url config in
  let followSitemap := orDefault true (CrawlConfig.followSitemap config) in
  if followSitemap then
    seedFromSitemaps fuel
      (if Nat.ltb 0 (length (sitemaps robotsTxt))
       then sitemaps robotsTxt
       else [(baseUrl ++ "/sitemap.xml")%string])
      (JS.Set_addAll [] [url])
  else ret (Some (JS.Set_addAll [] [url])).

(** [crawlSite] from the point where [robotsTxt] has its value, with the
    local variables still in view. *)
Definition crawlWithPolicy (fuel : nat) (config : CrawlConfig.t)
  (baseUrl : string) (robotsTxt : RobotsTxt) : M (Outcome CrawlRun) :=
  let maxPages := orDefault 100 (CrawlConfig.maxPages config) in
  seeded <- seedFrontier fuel config baseUrl robotsTxt ;;
  match seeded with
  | None => ret Diverged
  | Some urlsToCrawl =>
      st <- crawlLoop robotsTxt maxPages urlsToCrawl
              (mkFrontier [] urlsToCrawl []) ;;
      ret (Returned (mkCrawlRun urlsToCrawl st))
  end.

(** The robots policy [crawlSite] works with. *)
Definition resolvePolicy (config : CrawlConfig.t) (baseUrl : string)
  : M RobotsTxt :=
  if orDefault true (CrawlConfig.respectRobotsTxt config)
  then fetchRobotsTxt baseUrl
  else ret emptyRobotsTxt.

Definition crawlSiteRun (fuel : nat) (config : CrawlConfig.t)
  : M (Outcome CrawlRun) :=
  match URL_new P (CrawlConfig.url config) None with
  | None => ret Threw
  | Some seed =>
      let baseUrl := URL.origin seed in
      robotsTxt <- resolvePolicy config baseUrl ;;
      crawlWithPolicy fuel config baseUrl robotsTxt
  end.

Definition crawlSite (fuel : nat) (config : CrawlConfig.t)
  : M (Outcome (list PageAnalysis.t)) :=
  r <- crawlSiteRun fuel config ;;
  ret (match r with
       | Returned run => Returned (results (final run))
       | Threw => Threw
       | Diverged => Diverged
       end).

(** *** The values the loop variables go through *)

(** After each offered link. *)
Fixpoint offerStates (pageUrl : string) (res : list PageAnalysis.t)
  (crawled : list string) (toCrawl : list string) (links : list LinkInfo.t)
  : list Frontier :=
  match links with
  | [] => []
  | link :: rest =>
      let toCrawl' := offerLink pageUrl crawled toCrawl link in
      mkFrontier res toCrawl' crawled
        :: offerStates pageUrl res crawled toCrawl' rest
  end.

(** After [results.push], after [crawledUrls.add], after each link. *)
Definition recordPageStates (pageUrl : string) (analysis : PageAnalysis.t)
  (st : Frontier) : list Frontier :=
  let res := results st ++ [analysis] in
  let crawled := JS.Set_add (crawledUrls st) pageUrl in
  mkFrontier res (urlsToCrawl st) (crawledUrls st)
    :: mkFrontier res (urlsToCrawl st) crawled
    :: offerStates pageUrl res crawled (urlsToCrawl st)
         (filter followed (PageAnalysis.links analysis)).

(** Every value of the variables while [crawlLoop] runs from [st] in world
    [w]: at the head of each turn and after each update. *)
Fixpoint crawlLoopStates (robotsTxt : RobotsTxt) (maxPages : Z)
  (pages : list string) (st : Frontier) (w : World P) : list Frontier :=
  st ::
  match pages with
  | [] => []
  | pageUrl :: rest =>
      if Z.of_nat (length (crawledUrls st)) >=? maxPages then []
      else if JS.Set_has (crawledUrls st) pageUrl then
        crawlLoopStates robotsTxt maxPages rest st w
      else
        let o := analyzePage pageUrl None w in
        match value o with
        | Some analysis =>
            recordPageStates pageUrl analysis st
            ++ crawlLoopStates robotsTxt maxPages rest
                 (recordPage pageUrl analysis st) (after o)
        | None => crawlLoopStates robotsTxt maxPages rest st (after o)
        end
  end.

(** The first half of [crawlSite], down to [Array.from(urlsToCrawl)]: the
    policy and the seeded set. *)
Definition crawlPrepare (fuel : nat) (config : CrawlConfig.t)
  : M (Outcome (RobotsTxt * list string)) :=
  match URL_new P (CrawlConfig.url config) None with
  | None => ret Threw
  | Some seed =>
      let baseUrl := URL.origin seed in
      robotsTxt <- resolvePolicy config baseUrl ;;
      seeded <- seedFrontier fuel config baseUrl robotsTxt ;;
      ret (match seeded with
           | None => Diverged
           | Some urlsToCrawl => Returned (robotsTxt, urlsToCrawl)
           end)
  end.

(** The values the variables of a whole crawl go through once it has
    reached its loop; empty when it never does. *)
Definition crawlSiteStates (fuel : nat) (config : CrawlConfig.t)
  (w : World P) : list Frontier :=
  let o := crawlPrepare fuel config w in
  match value o with
  | Returned (robotsTxt, urlsToCrawl) =>
      crawlLoopStates robotsTxt
        (orDefault 100 (CrawlConfig.maxPages config)) urlsToCrawl
        (mkFrontier [] urlsToCrawl []) (after o)
  | _ => []
  end.

End Service.

Arguments mkOut {P A} _ _ _.
Arguments value {P A} _.
Arguments after {P A} _.
Arguments trace {P A} _.

(** ** Counting words

    The [wordCount] of [analyzePage], as a function of the text of the
    [body] element. *)

Module Words.

(** [text.replace(/\s+/g, ' ')]; [inRun] tells that the character before
    was white space, so that a run yields one space. *)
Fixpoint collapseFrom (inRun : bool) (s : string) : string :=
  match s with
  | EmptyString => EmptyString
  | String c s' =>
      if JS.isWhiteSpace c then
        if inRun then collapseFrom true s'
        else String " " (collapseFrom true s')
      else String c (collapseFrom false s')
  end.

Definition collapseWhiteSpace (s : string) : string := collapseFrom false s.

(** [s.split(' ')] *)
Fixpoint splitSpaces (s : string) : list string :=
  match s with
  | EmptyString => [EmptyString]
  | String c s' =>
      match splitSpaces s' with
      | [] => [EmptyString]
      | l :: ls =>
          if Ascii.eqb c " " then EmptyString :: l :: ls
          else String c l :: ls
      end
  end.

Definition wordCountOf (body : string) : nat :=
  let bodyText := JS.trim (collapseWhiteSpace body) in
  length (filter (fun w => Nat.ltb 0 (String.length w))
                 (splitSpaces bodyText)).

End Words.

(** ** The audit service

    [src/services/seo-audit-service.ts]: the checks that [audit] runs over
    the crawled pages and the summary it draws from them. The health score
    is double arithmetic and [crawledAt] is the clock; they are left out. *)

Module Audit.

Inductive IssueSeverity := error | warning | notice.

Record SEOIssue := mkIssue {
  type : string;
  severity : IssueSeverity;
  message : string;
  affectedUrls : list string;
  recommendation : string
}.

Record Summary := mkSummary {
  errors : nat;
  warnings : nat;
  notices : nat
}.

(** A count or a status code inside a template string. *)
Definition natToString (n : nat) : string :=
  NilZero.string_of_uint (Nat.to_uint n).

Definition numberToString (z : Z) : string :=
  NilZero.string_of_int (Z.to_int z).

(** Truthiness of a [string | null]: the empty string is falsy. *)
Definition truthyString (s : option string) : bool :=
  match s with
  | Some t => negb (t =? "")%string
  | None => false
  end.

(** [s && s.length < n] and [s && s.length > n] *)
Definition shorterThan (n : nat) (s : option string) : bool :=
  match s with
  | Some t => negb (t =? "")%string && Nat.ltb (String.length t) n
  | None => false
  end.

Definition longerThan (n : nat) (s : option string) : bool :=
  match s with
  | Some t => negb (t =? "")%string && Nat.ltb n (String.length t)
  | None => false
  end.

(** [object[key]] on a record of strings given by its entries, whose keys
    are distinct. *)
Fixpoint Record_get (o : list (string * string)) (key : string)
  : option string :=
  match o with
  | [] => None
  | (k, v) :: rest => if (k =? key)%string then Some v else Record_get rest key
  end.

(** The page fields the checks read. *)
Definition url (p : PageAnalysis.t) : string := PageAnalysis.url p.
Definition pageTitle (p : PageAnalysis.t) : option string :=
  title (PageAnalysis.content p).
Definition pageDescription (p : PageAnalysis.t) : option string :=
  metaDescription (PageAnalysis.content p).

Definition checkTitles (pages : list PageAnalysis.t) : list SEOIssue :=
  let issues := [] in
  let missingTitles :=
    filter (fun p => negb (truthyString (pageTitle p))) pages in
  let issues :=
    if Nat.ltb 0 (length missingTitles) then
      issues ++
      [mkIssue "missing_title" error
         (natToString (length missingTitles)
          ++ " page(s) missing title tag")%string
         (map url missingTitles)
         "Add a unique, descriptive title tag to each page (30-60 characters)"]
    else issues in
  let shortTitles := filter (fun p => shorterThan 30 (pageTitle p)) pages in
  let issues :=
    if Nat.ltb 0 (length shortTitles) then
      issues ++
      [mkIssue "title_too_short" warning
         (natToString (length shortTitles)
          ++ " page(s) with title tags shorter than 30 characters")%string
         (map url shortTitles)
         "Expand title tags to at least 30 characters for better SEO"]
    else issues in
  let longTitles := filter (fun p => longerThan 60 (pageTitle p)) pages in
  let issues :=
    if Nat.ltb 0 (length longTitles) then
      issues ++
      [mkIssue "title_too_long" warning
         (natToString (length longTitles)
          ++ " page(s) with title tags longer than 60 characters")%string
         (map url longTitles)
         "Shorten title tags to 60 characters or less to avoid truncation"]
    else issues in
  issues.

Definition checkMetaDescriptions (pages : list PageAnalysis.t)
  : list SEOIssue :=
  let issues := [] in
  let missingDesc :=
    filter (fun p => negb (truthyString (pageDescription p))) pages in
  let issues :=
    if Nat.ltb 0 (length missingDesc) then
      issues ++
      [mkIssue "missing_meta_description" error
         (natToString (length missingDesc)
          ++ " page(s) missing meta description")%string
         (map url missingDesc)
         "Add a compelling meta description to each page (120-160 characters)"]
    else issues in
  let shortDesc :=
    filter (fun p => shorterThan 120 (pageDescription p)) pages in
  let issues :=
    if Nat.ltb 0 (length shortDesc) then
      issues ++
      [mkIssue "meta_description_too_short" warning
         (natToString (length shortDesc)
          ++ " page(s) with meta description shorter than 120 characters")%string
         (map url shortDesc)
         "Expand meta descriptions to at least 120 characters"]
    else issues in
  let longDesc :=
    filter (fun p => longerThan 160 (pageDescription p)) pages in
  let issues :=
    if Nat.ltb 0 (length longDesc) then
      issues ++
      [mkIssue "meta_description_too_long" warning
         (natToString (length longDesc)
          ++ " page(s) with meta description longer than 160 characters")%string
         (map url longDesc)
         "Shorten meta descriptions to 160 characters or less"]
    else issues in
  issues.

Definition checkH1Tags (pages : list PageAnalysis.t) : list SEOIssue :=
  let issues := [] in
  let missingH1 :=
    filter (fun p => Nat.eqb (length (h1Tags (PageAnalysis.content p))) 0)
           pages in
  let issues :=
    if Nat.ltb 0 (length missingH1) then
      issues ++
      [mkIssue "missing_h1" error
         (natToString (length missingH1) ++ " page(s) missing H1 tag")%string
         (map url missingH1)
         "Add exactly one H1 tag to each page with the main heading"]
    else issues in
  let multipleH1 :=
    filter (fun p => Nat.ltb 1 (length (h1Tags (PageAnalysis.content p))))
           pages in
  let issues :=
    if Nat.ltb 0 (length multipleH1) then
      issues ++
      [mkIssue "multiple_h1" error
         (natToString (length multipleH1)
          ++ " page(s) with multiple H1 tags")%string
         (map url multipleH1)
         "Use only one H1 tag per page for proper heading structure"]
    else issues in
  issues.

Definition checkImages (pages : list PageAnalysis.t) : list SEOIssue :=
  let issues := [] in
  let pagesWithMissingAlt :=
    fold_left
      (fun acc page =>
         let missingAlt :=
           filter (fun img => negb (truthyString (ImageInfo.alt img)))
                  (images (PageAnalysis.content page)) in
         if Nat.ltb 0 (length missingAlt) then acc ++ [url page] else acc)
      pages [] in
  let issues :=
    if Nat.ltb 0 (length pagesWithMissingAlt) then
      issues ++
      [mkIssue "missing_image_alt" warning
         (natToString (length pagesWithMissingAlt)
          ++ " page(s) with images missing alt text")%string
         pagesWithMissingAlt
         "Add descriptive alt text to all images for accessibility and SEO"]
    else issues in
  issues.

Definition checkContent (pages : list PageAnalysis.t) : list SEOIssue :=
  let issues := [] in
  let thinContent :=
    filter (fun p => wordCount (PageAnalysis.content p) <? 300) pages in
  let issues :=
    if Nat.ltb 0 (length thinContent) then
      issues ++
      [mkIssue "thin_content" warning
         (natToString (length thinContent)
          ++ " page(s) with less than 300 words")%string
         (map url thinContent)
         "Add more substantive content (at least 300 words) to improve SEO value"]
    else issues in
  issues.

Definition checkCanonical (pages : list PageAnalysis.t) : list SEOIssue :=
  let issues := [] in
  let missingCanonical :=
    filter (fun p => negb (truthyString (canonical (PageAnalysis.content p))))
           pages in
  let issues :=
    if Nat.ltb 0 (length missingCanonical) then
      issues ++
      [mkIssue "missing_canonical" notice
         (natToString (length missingCanonical)
          ++ " page(s) missing canonical tag")%string
         (map url missingCanonical)
         "Add canonical tags to prevent duplicate content issues"]
    else issues in
  issues.

Definition checkOpenGraph (pages : list PageAnalysis.t) : list SEOIssue :=
  let issues := [] in
  let missingOG :=
    filter
      (fun p =>
         negb (truthyString
                 (Record_get (ogTags (PageAnalysis.content p)) "og:title"))
         || negb (truthyString
                    (Record_get (ogTags (PageAnalysis.content p))
                                "og:description")))
      pages in
  let issues :=
    if Nat.ltb 0 (length missingOG) then
      issues ++
      [mkIssue "missing_open_graph" notice
         (natToString (length missingOG)
          ++ " page(s) missing Open Graph tags")%string
         (map url missingOG)
         "Add og:title, og:description, og:image for better social sharing"]
    else issues in
  issues.

Definition checkSchema (pages : list PageAnalysis.t) : list SEOIssue :=
  let issues := [] in
  let missingSchema :=
    filter
      (fun p => Nat.eqb (length (schemaMarkup (PageAnalysis.content p))) 0)
      pages in
  let issues :=
    if Nat.ltb 0 (length missingSchema) then
      issues ++
      [mkIssue "missing_schema" notice
         (natToString (length missingSchema)
          ++ " page(s) missing structured data (schema.org)")%string
         (map url missingSchema)
         "Add JSON-LD structured data (Organization, LocalBusiness, Product, etc.)"]
    else issues in
  issues.

Definition checkBrokenLinks (pages : list PageAnalysis.t) : list SEOIssue :=
  let issues := [] in
  let brokenPages :=
    filter (fun p => (PageAnalysis.statusCode p >=? 400)
                     && (PageAnalysis.statusCode p <? 600))
           pages in
  let issues :=
    if Nat.ltb 0 (length brokenPages) then
      issues ++
      [mkIssue "broken_pages" error
         (natToString (length brokenPages)
          ++ " page(s) returning error status codes")%string
         (map (fun p => (url p ++ " ("
                         ++ numberToString (PageAnalysis.statusCode p)
                         ++ ")")%string)
              brokenPages)
         "Fix or redirect broken pages to improve user experience"]
    else issues in
  issues.

Definition checkSSL (pages : list PageAnalysis.t) : list SEOIssue :=
  let issues := [] in
  let httpPages := filter (fun p => JS.startsWith (url p) "http://") pages in
  let issues :=
    if Nat.ltb 0 (length httpPages) then
      issues ++
      [mkIssue "missing_ssl" error
         (natToString (length httpPages)
          ++ " page(s) not using HTTPS")%string
         (map url httpPages)
         "Implement SSL certificate and redirect all HTTP traffic to HTTPS"]
    else issues in
  issues.

(** A [Map<string, string[]>] as its entries in insertion order. *)
Definition UrlMap := list (string * list string).

Fixpoint Map_has (m : UrlMap) (key : string) : bool :=
  match m with
  | [] => false
  | (k, _) :: rest => (k =? key)%string || Map_has rest key
  end.

Fixpoint Map_get (m : UrlMap) (key : string) : option (list string) :=
  match m with
  | [] => None
  | (k, v) :: rest => if (k =? key)%string then Some v else Map_get rest key
  end.

(** [m.set(key, value)]: a new key goes last, a known key keeps its place. *)
Fixpoint Map_set (m : UrlMap) (key : string) (value : list string) : UrlMap :=
  match m with
  | [] => [(key, value)]
  | (k, v) :: rest =>
      if (k =? key)%string then (k, value) :: rest
      else (k, v) :: Map_set rest key value
  end.

(** The body of the two [pages.forEach] of [checkDuplicates], [text] being
    the page's title or description: the [push] on the array the map holds
    is the map with that array extended. *)
Definition groupPage (text : PageAnalysis.t -> option string)
  (m : UrlMap) (page : PageAnalysis.t) : UrlMap :=
  match text page with
  | Some t =>
      if negb (t =? "")%string then
        let m1 := if negb (Map_has m t) then Map_set m t [] else m in
        match Map_get m1 t with
        | Some urls => Map_set m1 t (urls ++ [url page])
        | None => m1
        end
      else m
  | None => m
  end.

Definition groupPages (text : PageAnalysis.t -> option string)
  (pages : list PageAnalysis.t) : UrlMap :=
  fold_left (groupPage text) pages [].

Definition checkDuplicates (pages : list PageAnalysis.t) : list SEOIssue :=
  let issues := [] in
  let titleMap := groupPages pageTitle pages in
  let duplicateTitles :=
    filter (fun entry => Nat.ltb 1 (length (snd entry))) titleMap in
  let issues :=
    if Nat.ltb 0 (length duplicateTitles) then
      let affectedUrls :=
        flat_map
          (fun entry =>
             map (fun u => (u ++ " (" ++ fst entry ++ ")")%string)
                 (snd entry))
          duplicateTitles in
      issues ++
      [mkIssue "duplicate_titles" warning
         (natToString (length duplicateTitles)
          ++ " duplicate title tag(s) found")%string
         affectedUrls
         "Create unique title tags for each page"]
    else issues in
  let descMap := groupPages pageDescription pages in
  let duplicateDescs :=
    filter (fun entry => Nat.ltb 1 (length (snd entry))) descMap in
  let issues :=
    if Nat.ltb 0 (length duplicateDescs) then
      let affectedUrls := flat_map (fun entry => snd entry) duplicateDescs in
      issues ++
      [mkIssue "duplicate_meta_descriptions" warning
         (natToString (length duplicateDescs)
          ++ " duplicate meta description(s) found")%string
         affectedUrls
         "Write unique meta descriptions for each page"]
    else issues in
  issues.

(** The issues of [audit]: every check, in the order of the source. *)
Definition auditIssues (pages : list PageAnalysis.t) : list SEOIssue :=
  let issues := [] in
  let issues := issues ++ checkTitles pages in
  let issues := issues ++ checkMetaDescriptions pages in
  let issues := issues ++ checkH1Tags pages in
  let issues := issues ++ checkImages pages in
  let issues := issues ++ checkContent pages in
  let issues := issues ++ checkCanonical pages in
  let issues := issues ++ checkOpenGraph pages in
  let issues := issues ++ checkSchema pages in
  let issues := issues ++ checkBrokenLinks pages in
  let issues := issues ++ checkSSL pages in
  let issues := issues ++ checkDuplicates pages in
  issues.

Definition severity_eqb (a b : IssueSeverity) : bool :=
  match a, b with
  | error, error | warning, warning | notice, notice => true
  | _, _ => false
  end.

(** The summary of [audit]. *)
Definition auditSummary (issues : list SEOIssue) : Summary :=
  mkSummary
    (length (filter (fun i => severity_eqb (severity i) error) issues))
    (length (filter (fun i => severity_eqb (severity i) warning) issues))
    (length (filter (fun i => severity_eqb (severity i) notice) issues)).

End Audit.

(** ** A small web to run the service on *)

Module Sample.

(** [new URL] on the inputs used below: absolute [http]/[https] URLs with a
    lower-case host and neither port nor credentials, paths without dot
    segments, and references that are absolute, scheme-relative ([//host]),
    root-relative ([/path]), empty, or a plain relative path. An empty host
    is an error, as in the WHATWG parser. *)

Definition isDelimiter (c : ascii) : bool :=
  Ascii.eqb c "/" || Ascii.eqb c "?" || Ascii.eqb c "#".

Fixpoint upTo (stop : ascii -> bool) (s : string) : string * string :=
  match s with
  | EmptyString => (EmptyString, EmptyString)
  | String c s' =>
      if stop c then (EmptyString, s)
      else let '(a, b) := upTo stop s' in (String c a, b)
  end.

(** scheme (with its colon), host and the rest from the path on *)
Definition parseAbsolute (s : string) : option (string * string * string) :=
  let rest :=
    if JS.startsWith s "https://" then Some ("https:", JS.substring 8 s)
    else if JS.startsWith s "http://" then Some ("http:", JS.substring 7 s)
    else None in
  match rest with
  | None => None
  | Some (scheme, r) =>
      let '(host, tail) := upTo isDelimiter r in
      if (host =? "")%string then None
      else Some (scheme, host,
                 if JS.startsWith tail "/" then tail
                 else ("/" ++ tail)%string)
  end.

Definition build (parts : string * string * string) : URL.t :=
  let '(scheme, host, tail) := parts in
  URL.mk host (scheme ++ "//" ++ host)%string
         (scheme ++ "//" ++ host ++ tail)%string.

(** the directory of a path: everything up to its last slash, the query and
    fragment left out *)
Fixpoint directory (path : string) : string :=
  match path with
  | EmptyString => EmptyString
  | String c rest =>
      if Ascii.eqb c "?" || Ascii.eqb c "#" then EmptyString
      else
        let d := directory rest in
        if (d =? "")%string then
          (if Ascii.eqb c "/" then "/" else EmptyString)
        else String c d
  end.

Definition URL_new (input : string) (base : option string)
  : option URL.t :=
  if JS.startsWith input "http://" || JS.startsWith input "https://" then
    option_map build (parseAbsolute input)
  else
    match base with
    | None => None
    | Some b =>
        match parseAbsolute b with
        | None => None
        | Some (scheme, host, tail) =>
            if JS.startsWith input "//" then
              option_map build (parseAbsolute (scheme ++ input)%string)
            else if JS.startsWith input "/" then
              Some (build (scheme, host, input))
            else if (input =? "")%string then
              Some (build (scheme, host, fst (upTo (Ascii.eqb "#") tail)))
            else
              Some (build (scheme, host, (directory tail ++ input)%string))
        end
    end.

(** The documents of the sample web. *)
Definition homeHtml : string := "<a href='/b'>b</a>".
Definition plainHtml : string := "<p>b</p>".
Definition otherHtml : string := "<a href='/y'>y</a>".
Definition indexXml : string :=
  "<sitemapindex><sitemap><loc>https://example.com/pages.xml</loc></sitemap><url><loc>https://example.com/b</loc></url></sitemapindex>".
Definition slowRobots : string :=
  "User-agent: *" ++ String JS.LF "Crawl-delay: 5"
  ++ String JS.LF "Disallow: /private" ++ String JS.LF "Crawl-delay: soon".
Definition zeroRobots : string :=
  "User-agent: *" ++ String JS.LF "Crawl-delay: 0".
Definition pagesXml : string :=
  "<urlset><url><loc>https://example.com/</loc></url><url><loc>https://example.com/down</loc></url><url><loc>https://other.com/x</loc></url></urlset>".

(** The sample web does not change while it is crawled: its world is the
    number of page loads served so far. [https://example.com/down],
    [https://example.com/robots.txt] and every unknown address fail. *)
Definition serve (url : string) : option FetchResult :=
  if (url =? "https://example.com/")%string then
    Some (mkFetchResult homeHtml 200 120)
  else if (url =? "https://example.com/b")%string then
    Some (mkFetchResult plainHtml 200 80)
  else if (url =? "https://other.com/x")%string then
    Some (mkFetchResult otherHtml 200 95)
  else if (url =? "https://example.com/sitemap.xml")%string then
    Some (mkFetchResult indexXml 200 40)
  else if (url =? "https://example.com/pages.xml")%string then
    Some (mkFetchResult pagesXml 200 45)
  else if (url =? "https://slow.example/robots.txt")%string then
    Some (mkFetchResult slowRobots 200 30)
  else if (url =? "https://slow.example/private")%string then
    Some (mkFetchResult plainHtml 200 60)
  else if (url =? "https://zero.example/robots.txt")%string then
    Some (mkFetchResult zeroRobots 200 30)
  else if (url =? "https://zero.example/")%string then
    Some (mkFetchResult plainHtml 200 70)
  else None.

Definition browse (url : string) (waitForSelector : option string)
  (timeout : Z) (loads : nat) : option FetchResult * nat :=
  (serve url, S loads).

Definition cheerio_anchors (html : string) : list Anchor :=
  if (html =? homeHtml)%string then [mkAnchor (Some "/b") "b" None]
  else if (html =? otherHtml)%string then [mkAnchor (Some "/y") "y" None]
  else [].

Definition cheerio_content (html : string) : PageContent :=
  mkPageContent None None [] [] 1 [] None [] [] [].

Definition cheerio_xml (html : string) : SitemapDoc :=
  if (html =? indexXml)%string then
    mkSitemapDoc ["https://example.com/pages.xml"]
                 ["https://example.com/b"] 1
  else if (html =? pagesXml)%string then
    mkSitemapDoc []
                 ["https://example.com/"; "https://example.com/down";
                  "https://other.com/x"] 0
  else mkSitemapDoc [] [] 0.

Definition web : Platform :=
  mkPlatform nat browse URL_new cheerio_anchors cheerio_content cheerio_xml.

(** A crawl of [https://example.com/] without robots policy. *)
Definition config (maxPages : Z) (followSitemap : bool) : CrawlConfig.t :=
  CrawlConfig.mk "https://example.com/" (Some maxPages) (Some followSitemap)
                 (Some false) None None.

(** A crawl of one address under the site's robots policy, sitemaps left
    aside. *)
Definition politeConfig (url : string) : CrawlConfig.t :=
  CrawlConfig.mk url None (Some false) None None None.

(** Addresses, records and a frontier that the runs below meet. *)
Definition home : string := "https://example.com/".
Definition down : string := "https://example.com/down".
Definition foreign : string := "https://other.com/x".

Definition seededFromSitemap : list string := [home; down; foreign].

Definition homeAnalysis : PageAnalysis.t :=
  PageAnalysis.mk home (cheerio_content homeHtml)
    [LinkInfo.mk "/b" "b" true false] 120 200.

Definition foreignAnalysis : PageAnalysis.t :=
  PageAnalysis.mk foreign (cheerio_content otherHtml)
    [LinkInfo.mk "/y" "y" true false] 95 200.

(** The loop variables once the home page is recorded. *)
Definition afterHome : Frontier :=
  mkFrontier [homeAnalysis] [home; "https://example.com/b"] [home].

End Sample.

(** ** Two more small webs *)

Module Looping.

(** A site whose sitemap index lists itself: every address answers with
    the same index document. *)
Definition selfXml : string :=
  "<sitemapindex><sitemap><loc>https://loop.example/sitemap.xml</loc></sitemap></sitemapindex>".

Definition browse (url : string) (waitForSelector : option string)
  (timeout : Z) (w : unit) : option FetchResult * unit :=
  (Some (mkFetchResult selfXml 200 10), tt).

Definition cheerio_xml (html : string) : SitemapDoc :=
  mkSitemapDoc ["https://loop.example/sitemap.xml"] [] 1.

Definition web : Platform :=
  mkPlatform unit browse Sample.URL_new Sample.cheerio_anchors
             Sample.cheerio_content cheerio_xml.

End Looping.

Module Polite.

(** A robots document that asks for twelve seconds between requests and
    names two sitemaps. *)
Definition robots : string :=
  "User-agent: *" ++ String JS.LF "Sitemap: https://example.com/a.xml"
  ++ String JS.LF "Disallow: /tmp" ++ String JS.LF "CRAWL-DELAY: 12"
  ++ String JS.LF "sitemap: https://example.com/b.xml".

(** The sample crawl of [https://example.com/] with the robots policy
    asked for; that site has no robots document. *)
Definition config : CrawlConfig.t :=
  CrawlConfig.mk "https://example.com/" (Some 10) (Some true) (Some true)
                 None None.

(** What [new URL] makes of that seed address. *)
Definition seed : URL.t :=
  URL.mk "example.com" "https://example.com" "https://example.com/".

End Polite.


(** ** Vocabulary of the statements *)

(** A line of robots.txt that reaches the [crawl-delay:] branch, and the
    text [parseInt] is given there. *)
Definition isCrawlDelayLine (line : string) : bool :=
  let t := JS.toLowerCase (JS.trim line) in
  negb (JS.startsWith t "sitemap:") && negb (JS.startsWith t "disallow:")
  && JS.startsWith t "crawl-delay:".

Definition crawlDelayText (line : string) : string :=
  JS.trim (JS.substring 12 (JS.trim line)).

Definition lastCrawlDelayLine (lines : list string) : option string :=
  match rev (filter isCrawlDelayLine lines) with
  | [] => None
  | line :: _ => Some line
  end.

Module Spec.

(** The crawl delay in the words of the specification: the last
    [crawl-delay:] value that is a number wins, a value that is not a number
    is skipped and leaves the delay as it was. *)
Definition lastValidCrawlDelay (lines : list string) : option Z :=
  fold_left
    (fun delay line =>
       if isCrawlDelayLine line then
         match JS.parseInt (crawlDelayText line) with
         | Some v => Some v
         | None => delay
         end
       else delay)
    lines None.

End Spec.

(** What one turn of the crawl loop lets an observer see: the page load,
    then the sleep when the page was analysed, the error report when it was
    not. *)
Definition turnEvents (delay : Z) (attempt : string * bool) : list Event :=
  if snd attempt then [Fetch (fst attempt); Sleep delay]
  else [Fetch (fst attempt); ErrorCrawling (fst attempt)].

(** The addresses an attempt list succeeded on, in order. *)
Definition succeeded (attempts : list (string * bool)) : list string :=
  map fst (filter snd attempts).


(** A policy with its disallow patterns removed. *)
Definition clearDisallowed (r : RobotsTxt) : RobotsTxt :=
  mkRobotsTxt (sitemaps r) [] (crawlDelay r).

Definition disjoint (a b : list string) : Prop :=
  forall x, In x a -> ~ In x b.


(** *** For the audit *)

(** [l] is [l'] with some elements left out, the order kept. *)
Inductive Subseq {A : Type} : list A -> list A -> Prop :=
| Subseq_nil : Subseq [] []
| Subseq_skip x l l' : Subseq l l' -> Subseq l (x :: l')
| Subseq_take x l l' : Subseq l l' -> Subseq (x :: l) (x :: l').

(** What kind of issue a record reports. *)
Definition issueKind (i : Audit.SEOIssue) : string * Audit.IssueSeverity :=
  (Audit.type i, Audit.severity i).

(** The kinds of issue the service knows, in the order it looks for them. *)
Definition issueCatalogue : list (string * Audit.IssueSeverity) :=
  [("missing_title", Audit.error);
   ("title_too_short", Audit.warning);
   ("title_too_long", Audit.warning);
   ("missing_meta_description", Audit.error);
   ("meta_description_too_short", Audit.warning);
   ("meta_description_too_long", Audit.warning);
   ("missing_h1", Audit.error);
   ("multiple_h1", Audit.error);
   ("missing_image_alt", Audit.warning);
   ("thin_content", Audit.warning);
   ("missing_canonical", Audit.notice);
   ("missing_open_graph", Audit.notice);
   ("missing_schema", Audit.notice);
   ("broken_pages", Audit.error);
   ("missing_ssl", Audit.error);
   ("duplicate_titles", Audit.warning);
   ("duplicate_meta_descriptions", Audit.warning)].

(** The non-empty titles (or descriptions) of the pages, page by page. *)
Definition textsOf (text : PageAnalysis.t -> option string)
  (pages : list PageAnalysis.t) : list string :=
  flat_map
    (fun p =>
       match text p with
       | Some t => if (t =? "")%string then [] else [t]
       | None => []
       end)
    pages.

(** How many addresses a map holds under a key. *)
Definition groupSize (m : Audit.UrlMap) (key : string) : nat :=
  match Audit.Map_get m key with
  | Some urls => length urls
  | None => O
  end.

(** A text is present and its length lies between two bounds, both
    included. *)
Definition lengthWithin (lo hi : nat) (s : option string) : bool :=
  match s with
  | Some t => Nat.leb lo (String.length t) && Nat.leb (String.length t) hi
  | None => false
  end.

(** A page no per-page check has anything to say about. *)
Definition cleanPage (p : PageAnalysis.t) : bool :=
  let c := PageAnalysis.content p in
  lengthWithin 30 60 (title c)
  && lengthWithin 120 160 (metaDescription c)
  && Nat.eqb (length (h1Tags c)) 1
  && forallb (fun img => Audit.truthyString (ImageInfo.alt img)) (images c)
  && (300 <=? wordCount c)
  && Audit.truthyString (canonical c)
  && Audit.truthyString (Audit.Record_get (ogTags c) "og:title")
  && Audit.truthyString (Audit.Record_get (ogTags c) "og:description")
  && negb (Nat.eqb (length (schemaMarkup c)) 0)
  && negb ((400 <=? PageAnalysis.statusCode p)
           && (PageAnalysis.statusCode p <? 600))
  && negb (JS.startsWith (PageAnalysis.url p) "http://").

(** *** For the text of a page *)

(** The number of words of a text: of its maximal runs of characters that
    are not white space. [inWord] tells that the character before belongs
    to a word. *)
Fixpoint countWords (inWord : bool) (s : string) : nat :=
  match s with
  | EmptyString => O
  | String c s' =>
      if JS.isWhiteSpace c then countWords false s'
      else ((if inWord then 0 else 1) + countWords true s')%nat
  end.

(** The only white space of a text is the space character. *)
Fixpoint spacesOnly (s : string) : Prop :=
  match s with
  | EmptyString => True
  | String c s' =>
      (JS.isWhiteSpace c = true -> c = " "%char) /\ spacesOnly s'
  end.

(** *** For the crawl *)

(** The addresses a trace loads, in order. *)
Definition loads (t : list Event) : list string :=
  flat_map (fun e => match e with Fetch u => [u] | _ => [] end) t.


(** A configuration with the robots policy switched off. *)
Definition withoutRobots (config : CrawlConfig.t) : CrawlConfig.t :=
  CrawlConfig.mk (CrawlConfig.url config) (CrawlConfig.maxPages config)
                 (CrawlConfig.followSitemap config) (Some false)
                 (CrawlConfig.waitForSelector config)
                 (CrawlConfig.timeout config).

(** Lines of robots.txt that reach the [sitemap:] and [disallow:] branches,
    and the text each contributes. *)
Definition isSitemapLine (line : string) : bool :=
  JS.startsWith (JS.toLowerCase (JS.trim line)) "sitemap:".

Definition sitemapText (line : string) : string :=
  JS.trim (JS.substring 8 (JS.trim line)).

Definition isDisallowLine (line : string) : bool :=
  JS.startsWith (JS.toLowerCase (JS.trim line)) "disallow:".

Definition disallowText (line : string) : string :=
  JS.trim (JS.substring 9 (JS.trim line)).

(** ** Insertion-ordered sets *)

Lemma Set_has_In s x : JS.Set_has s x = true <-> In x s.
Proof.
  unfold JS.Set_has. rewrite existsb_exists. split.
  - intros [y [Hy He]]. apply String.eqb_eq in He. now subst.
  - intros H. exists x. split; [assumption | apply String.eqb_refl].
Qed.

Lemma Set_has_notIn s x : JS.Set_has s x = false <-> ~ In x s.
Proof.
  rewrite <- Set_has_In. destruct (JS.Set_has s x); split; congruence.
Qed.

Lemma Set_add_In s x y : In y (JS.Set_add s x) <-> In y s \/ y = x.
Proof.
  unfold JS.Set_add. destruct (JS.Set_has s x) eqn:E.
  - apply Set_has_In in E. split; [now left | intros [H | ->]; assumption].
  - rewrite in_app_iff. simpl. intuition congruence.
Qed.

Lemma Set_add_NoDup s x : NoDup s -> NoDup (JS.Set_add s x).
Proof.
  intros H. unfold JS.Set_add. destruct (JS.Set_has s x) eqn:E; [assumption |].
  apply Set_has_notIn in E.
  apply NoDup_app; [assumption | repeat constructor; simpl; tauto |].
  intros y Hy [<- | []]. contradiction.
Qed.

Lemma Set_add_fresh s x : ~ In x s -> JS.Set_add s x = s ++ [x].
Proof.
  intros H. unfold JS.Set_add. apply Set_has_notIn in H. now rewrite H.
Qed.

Lemma Set_addAll_NoDup l s : NoDup s -> NoDup (JS.Set_addAll s l).
Proof.
  unfold JS.Set_addAll. revert s.
  induction l as [| x l IH]; intros s H; simpl; [assumption |].
  apply IH, Set_add_NoDup, H.
Qed.

Lemma Set_addAll_In l s y : In y (JS.Set_addAll s l) <-> In y s \/ In y l.
Proof.
  unfold JS.Set_addAll. revert s.
  induction l as [| x l IH]; intros s; simpl; [tauto |].
  rewrite IH, Set_add_In. intuition congruence.
Qed.

(** ** The robots parsing loop *)

Lemma robotsLine_crawlDelay r line :
  crawlDelay (robotsLine r line) =
  if isCrawlDelayLine line
  then JS.orNull (JS.parseInt (crawlDelayText line))
  else crawlDelay r.
Proof.
  unfold robotsLine, isCrawlDelayLine, crawlDelayText.
  destruct (JS.startsWith _ "sitemap:"); [reflexivity |].
  destruct (JS.startsWith _ "disallow:"); [reflexivity |].
  destruct (JS.startsWith _ "crawl-delay:"); reflexivity.
Qed.

Lemma lastCrawlDelayLine_snoc lines line :
  lastCrawlDelayLine (lines ++ [line]) =
  if isCrawlDelayLine line then Some line else lastCrawlDelayLine lines.
Proof.
  unfold lastCrawlDelayLine. rewrite filter_app. simpl.
  destruct (isCrawlDelayLine line).
  - now rewrite rev_app_distr.
  - now rewrite app_nil_r.
Qed.

Lemma fold_robotsLine_crawlDelay lines r :
  crawlDelay (fold_left robotsLine lines r) =
  match lastCrawlDelayLine lines with
  | Some line => JS.orNull (JS.parseInt (crawlDelayText line))
  | None => crawlDelay r
  end.
Proof.
  induction lines as [| line lines IH] using rev_ind; [reflexivity |].
  rewrite fold_left_app, lastCrawlDelayLine_snoc. simpl.
  rewrite robotsLine_crawlDelay.
  destruct (isCrawlDelayLine line); [reflexivity | exact IH].
Qed.

Lemma parseRobotsTxt_crawlDelay html :
  crawlDelay (parseRobotsTxt html) =
  match lastCrawlDelayLine (JS.splitLines html) with
  | Some line => JS.orNull (JS.parseInt (crawlDelayText line))
  | None => None
  end.
Proof. apply fold_robotsLine_crawlDelay. Qed.

Lemma orNull_nonzero x d : JS.orNull x = Some d -> d <> 0.
Proof. destruct x as [[| p | p] |]; simpl; congruence. Qed.

(** ** The service on any platform *)

Section Properties.

Variable P : Platform.

(** *** Single calls *)

Lemma fetchPage_trace url sel t w :
  trace (fetchPage P url sel t w) = [Fetch url].
Proof. unfold fetchPage. now destruct (browse P url sel t w). Qed.

Lemma analyzePage_trace url sel w :
  trace (analyzePage P url sel w) = [Fetch url].
Proof.
  unfold analyzePage, bind. cbn [trace].
  rewrite fetchPage_trace.
  destruct (value (fetchPage P url sel 30000 w)); [| reflexivity].
  destruct (URL_new P url None); reflexivity.
Qed.

Lemma analyzePage_url url sel w analysis :
  value (analyzePage P url sel w) = Some analysis ->
  PageAnalysis.url analysis = url.
Proof.
  unfold analyzePage, bind. cbn [value].
  destruct (value (fetchPage P url sel 30000 w)); [| discriminate].
  destruct (URL_new P url None); cbn; [| discriminate].
  now intros [= <-].
Qed.

(** *** The crawl loop, turn by turn *)

Lemma recordPage_results pageUrl analysis st :
  results (recordPage P pageUrl analysis st) = results st ++ [analysis].
Proof. reflexivity. Qed.

Lemma recordPage_crawled pageUrl analysis st :
  crawledUrls (recordPage P pageUrl analysis st) =
  JS.Set_add (crawledUrls st) pageUrl.
Proof. reflexivity. Qed.

Lemma crawlLoop_stop robotsTxt maxPages pageUrl rest st w :
  (Z.of_nat (length (crawledUrls st)) >=? maxPages) = true ->
  crawlLoop P robotsTxt maxPages (pageUrl :: rest) st w = mkOut st w [].
Proof. intros H. cbn [crawlLoop]. now rewrite H. Qed.

Lemma crawlLoop_ok robotsTxt maxPages pageUrl rest st w analysis :
  (Z.of_nat (length (crawledUrls st)) >=? maxPages) = false ->
  JS.Set_has (crawledUrls st) pageUrl = false ->
  value (analyzePage P pageUrl None w) = Some analysis ->
  let o := crawlLoop P robotsTxt maxPages rest
             (recordPage P pageUrl analysis st)
             (after (analyzePage P pageUrl None w)) in
  crawlLoop P robotsTxt maxPages (pageUrl :: rest) st w =
  mkOut (value o) (after o)
        (Fetch pageUrl :: Sleep (politenessDelay robotsTxt) :: trace o).
Proof.
  intros Hb Hh Ha. cbn [crawlLoop]. rewrite Hb, Hh.
  unfold bind. cbn [value after trace]. rewrite analyzePage_trace, Ha.
  reflexivity.
Qed.

Lemma crawlLoop_failed robotsTxt maxPages pageUrl rest st w :
  (Z.of_nat (length (crawledUrls st)) >=? maxPages) = false ->
  JS.Set_has (crawledUrls st) pageUrl = false ->
  value (analyzePage P pageUrl None w) = None ->
  let o := crawlLoop P robotsTxt maxPages rest st
             (after (analyzePage P pageUrl None w)) in
  crawlLoop P robotsTxt maxPages (pageUrl :: rest) st w =
  mkOut (value o) (after o)
        (Fetch pageUrl :: ErrorCrawling pageUrl :: trace o).
Proof.
  intros Hb Hh Ha. cbn [crawlLoop]. rewrite Hb, Hh.
  unfold bind. cbn [value after trace]. rewrite analyzePage_trace, Ha.
  reflexivity.
Qed.

(** From a snapshot without repetition whose pages are all still to crawl,
    the loop attempts a prefix of the snapshot, each page once, and stops
    only at the end of the snapshot or on the page budget. *)
Lemma crawlLoop_attempts robotsTxt maxPages pages :
  forall st w,
    NoDup pages ->
    disjoint pages (crawledUrls st) ->
    let o := crawlLoop P robotsTxt maxPages pages st w in
    exists attempts rest fresh,
      pages = map fst attempts ++ rest
      /\ trace o = flat_map (turnEvents (politenessDelay robotsTxt)) attempts
      /\ results (value o) = results st ++ fresh
      /\ map PageAnalysis.url fresh = succeeded attempts
      /\ crawledUrls (value o) = crawledUrls st ++ succeeded attempts
      /\ (rest = []
          \/ Z.of_nat (length (crawledUrls (value o))) >= maxPages)
      /\ Z.of_nat (length (crawledUrls (value o)))
         <= Z.max maxPages (Z.of_nat (length (crawledUrls st))).
Proof.
  induction pages as [| pageUrl rest IH]; intros st w Hnd Hdis; cbn zeta.
  - exists [], [], []. cbn. rewrite !app_nil_r. repeat split; auto; lia.
  - destruct (Z.of_nat (length (crawledUrls st)) >=? maxPages) eqn:Hb.
    + rewrite (crawlLoop_stop _ _ _ _ _ _ Hb).
      exists [], (pageUrl :: rest), []. cbn. rewrite !app_nil_r.
      repeat split; auto; [right |]; lia.
    + assert (Hfresh : ~ In pageUrl (crawledUrls st))
        by (apply Hdis; now left).
      pose proof (proj2 (Set_has_notIn _ _) Hfresh) as Hhas.
      inversion Hnd as [| ? ? Hnotin Hnd']; subst.
      destruct (value (analyzePage P pageUrl None w)) as [analysis |] eqn:Ha.
      * rewrite (crawlLoop_ok _ _ _ _ _ _ _ Hb Hhas Ha). cbn [value trace].
        set (st' := recordPage P pageUrl analysis st).
        set (w' := after (analyzePage P pageUrl None w)).
        assert (Hc : crawledUrls st' = crawledUrls st ++ [pageUrl])
          by (unfold st'; rewrite recordPage_crawled;
              now apply Set_add_fresh).
        destruct (IH st' w' Hnd') as
          (attempts & rest' & fresh & Hp & Ht & Hr & Hu & Hcr & Hstop & Hle).
        { intros x Hx. rewrite Hc, in_app_iff. simpl.
          intros [Hin | [<- | []]]; [| contradiction].
          apply (Hdis x); [now right | assumption]. }
        exists ((pageUrl, true) :: attempts), rest', (analysis :: fresh).
        unfold succeeded in *. cbn [map fst snd filter flat_map turnEvents].
        rewrite Hp at 1. rewrite Ht, Hr, Hcr, Hc, Hu.
        unfold st'. rewrite recordPage_results.
        rewrite (analyzePage_url _ _ _ _ Ha), <- !app_assoc.
        rewrite Hcr, Hc, <- app_assoc in Hstop, Hle.
        repeat split; auto.
        rewrite Z.geb_leb in Hb. apply Z.leb_gt in Hb.
        rewrite !length_app in *. cbn [length] in *. lia.
      * rewrite (crawlLoop_failed _ _ _ _ _ _ Hb Hhas Ha). cbn [value trace].
        set (w' := after (analyzePage P pageUrl None w)).
        destruct (IH st w' Hnd') as
          (attempts & rest' & fresh & Hp & Ht & Hr & Hu & Hcr & Hstop & Hle).
        { intros x Hx. apply Hdis. now right. }
        exists ((pageUrl, false) :: attempts), rest', fresh.
        unfold succeeded in *. cbn [map fst snd filter flat_map turnEvents].
        rewrite Hp at 1. rewrite Ht.
        repeat split; auto.
Qed.

(** When every page among those the budget still allows can be analysed,
    in whatever world it is loaded, the loop reports no failure. *)
Lemma crawlLoop_unfailing robotsTxt maxPages pages :
  forall st w,
    NoDup pages ->
    disjoint pages (crawledUrls st) ->
    (forall u w',
        In u (firstn (Z.to_nat (maxPages
                                - Z.of_nat (length (crawledUrls st))))
                     pages) ->
        value (analyzePage P u None w') <> None) ->
    forall u,
      ~ In (ErrorCrawling u)
           (trace (crawlLoop P robotsTxt maxPages pages st w)).
Proof.
  induction pages as [| pageUrl rest IH]; intros st w Hnd Hdis Hok u.
  - intros [].
  - destruct (Z.of_nat (length (crawledUrls st)) >=? maxPages) eqn:Hb.
    + rewrite (crawlLoop_stop _ _ _ _ _ _ Hb). intros [].
    + assert (Hfresh : ~ In pageUrl (crawledUrls st))
        by (apply Hdis; now left).
      pose proof (proj2 (Set_has_notIn _ _) Hfresh) as Hhas.
      inversion Hnd as [| ? ? Hnotin Hnd']; subst.
      pose proof Hb as Hlt. rewrite Z.geb_leb in Hlt. apply Z.leb_gt in Hlt.
      destruct (Z.to_nat (maxPages - Z.of_nat (length (crawledUrls st))))
        as [| k] eqn:Hk; [lia |].
      cbn [firstn] in Hok.
      destruct (value (analyzePage P pageUrl None w)) as [analysis |] eqn:Ha.
      * rewrite (crawlLoop_ok _ _ _ _ _ _ _ Hb Hhas Ha). cbn [trace].
        set (st' := recordPage P pageUrl analysis st).
        assert (Hc : crawledUrls st' = crawledUrls st ++ [pageUrl])
          by (unfold st'; rewrite recordPage_crawled;
              now apply Set_add_fresh).
        intros [H | [H | H]]; [discriminate | discriminate |].
        revert H. apply IH; [exact Hnd' | |].
        -- intros x Hx. rewrite Hc, in_app_iff. simpl.
           intros [Hin | [<- | []]]; [| contradiction].
           apply (Hdis x); [now right | assumption].
        -- intros v w' Hv. apply Hok. right.
           replace (Z.to_nat (maxPages
                              - Z.of_nat (length (crawledUrls st'))))
             with k in Hv; [exact Hv |].
           rewrite Hc, length_app. cbn [length]. lia.
      * exfalso. apply (Hok pageUrl w); [now left | exact Ha].
Qed.

(** *** Sitemap documents *)

(** What [fetchSitemap] does with a fetched document that has a [sitemap]
    element: every [loc] text it collected, those under [url] elements
    included, is resolved as a child sitemap. *)
Lemma fetchSitemap_index_children fuel sitemapUrl w f w' :
  browse P sitemapUrl None 30000 w = (Some f, w') ->
  Nat.ltb 0 (sitemap_length (cheerio_xml P (html f))) = true ->
  let o := fetchChildren P (fetchSitemap P fuel)
             (map JS.trim (sitemap_loc (cheerio_xml P (html f)))
              ++ map JS.trim (url_loc (cheerio_xml P (html f))))
             [] w' in
  fetchSitemap P (S fuel) sitemapUrl w =
  mkOut (value o) (after o) (Fetch sitemapUrl :: trace o).
Proof.
  intros Hb Hi. cbn [fetchSitemap]. unfold bind, fetchPage. rewrite Hb.
  cbn [value after trace]. now rewrite Hi.
Qed.

Lemma fetchSitemap_urlset fuel sitemapUrl w f w' :
  browse P sitemapUrl None 30000 w = (Some f, w') ->
  Nat.ltb 0 (sitemap_length (cheerio_xml P (html f))) = false ->
  fetchSitemap P (S fuel) sitemapUrl w =
  mkOut (Some (map JS.trim (sitemap_loc (cheerio_xml P (html f)))
               ++ map JS.trim (url_loc (cheerio_xml P (html f)))))
        w' [Fetch sitemapUrl].
Proof.
  intros Hb Hi. cbn [fetchSitemap]. unfold bind, fetchPage. rewrite Hb.
  cbn [value after trace]. now rewrite Hi.
Qed.

(** *** Fuel *)

Lemma fetchChildren_agree self self' urls :
  (forall u w r, value (self u w) = Some r -> self' u w = self u w) ->
  forall childUrls w r,
    value (fetchChildren P self urls childUrls w) = Some r ->
    fetchChildren P self' urls childUrls w
    = fetchChildren P self urls childUrls w.
Proof.
  intros Hself. induction urls as [| u rest IH]; intros childUrls w r;
    cbn [fetchChildren]; [reflexivity |].
  unfold bind. cbn [value after trace].
  destruct (value (self u w)) as [us |] eqn:E; [| discriminate].
  rewrite (Hself _ _ _ E), E. intros Hr. now rewrite (IH _ _ _ Hr).
Qed.

(** A sitemap resolved with some fuel is resolved the same way with more. *)
Lemma fetchSitemap_more_fuel fuel :
  forall sitemapUrl w r,
    value (fetchSitemap P fuel sitemapUrl w) = Some r ->
    fetchSitemap P (S fuel) sitemapUrl w = fetchSitemap P fuel sitemapUrl w.
Proof.
  induction fuel as [| fuel IH]; intros sitemapUrl w r; [discriminate |].
  remember (S fuel) as n eqn:Hn.
  rewrite Hn at 1 3. cbn [fetchSitemap]. subst n.
  unfold bind. cbn [value after trace].
  destruct (value (fetchPage P sitemapUrl None 30000 w)) as [f |];
    [| reflexivity].
  destruct (Nat.ltb 0 (sitemap_length (cheerio_xml P (html f))));
    [| reflexivity].
  intros Hr. now rewrite (fetchChildren_agree _ _ _ IH _ _ _ Hr).
Qed.

Lemma seedFromSitemaps_more_fuel fuel sitemapUrls :
  forall urlsToCrawl w seeded,
    value (seedFromSitemaps P fuel sitemapUrls urlsToCrawl w) = Some seeded ->
    seedFromSitemaps P (S fuel) sitemapUrls urlsToCrawl w
    = seedFromSitemaps P fuel sitemapUrls urlsToCrawl w.
Proof.
  induction sitemapUrls as [| s rest IH]; intros u w seeded;
    cbn [seedFromSitemaps]; [reflexivity |].
  unfold bind. cbn [value after trace].
  destruct (value (fetchSitemap P fuel s w)) as [urls |] eqn:E;
    [| discriminate].
  rewrite (fetchSitemap_more_fuel _ _ _ _ E), E.
  intros Hr. now rewrite (IH _ _ _ Hr).
Qed.

(** A crawl that returns with some fuel is the same crawl with more. *)
Lemma crawlSiteRun_more_fuel fuel config w run :
  value (crawlSiteRun P fuel config w) = Returned run ->
  crawlSiteRun P (S fuel) config w = crawlSiteRun P fuel config w.
Proof.
  unfold crawlSiteRun, crawlWithPolicy.
  destruct (URL_new P (CrawlConfig.url config) None) as [seed |];
    [| reflexivity].
  unfold bind. cbn [value after trace].
  set (p := resolvePolicy P config (URL.origin seed) w).
  destruct (value (seedFrontier P fuel config (URL.origin seed)
                     (value p) (after p))) as [seeded |] eqn:E;
    [| discriminate].
  intros _.
  assert (Hs : seedFrontier P (S fuel) config (URL.origin seed)
                 (value p) (after p)
               = seedFrontier P fuel config (URL.origin seed)
                   (value p) (after p)).
  { unfold seedFrontier in *.
    destruct (orDefault true (CrawlConfig.followSitemap config));
      [| reflexivity].
    exact (seedFromSitemaps_more_fuel _ _ _ _ _ E). }
  now rewrite Hs, E.
Qed.

(** *** The two halves of a crawl *)

Lemma seedFromSitemaps_NoDup fuel sitemapUrls :
  forall urlsToCrawl w seeded,
    NoDup urlsToCrawl ->
    value (seedFromSitemaps P fuel sitemapUrls urlsToCrawl w) = Some seeded ->
    NoDup seeded.
Proof.
  induction sitemapUrls as [| s rest IH]; intros u w seeded Hnd; cbn.
  - now intros [= <-].
  - destruct (value (fetchSitemap P fuel s w)) as [urls |]; cbn;
      [| discriminate].
    apply IH, Set_addAll_NoDup, Hnd.
Qed.

Lemma seedFrontier_NoDup fuel config baseUrl robotsTxt w seeded :
  value (seedFrontier P fuel config baseUrl robotsTxt w) = Some seeded ->
  NoDup seeded.
Proof.
  assert (H0 : NoDup (JS.Set_addAll [] [CrawlConfig.url config]))
    by (apply Set_addAll_NoDup; constructor).
  unfold seedFrontier.
  destruct (orDefault true (CrawlConfig.followSitemap config)).
  - now apply seedFromSitemaps_NoDup.
  - cbn. now intros [= <-].
Qed.

Lemma crawlPrepare_NoDup fuel config w robotsTxt seeded :
  value (crawlPrepare P fuel config w) = Returned (robotsTxt, seeded) ->
  NoDup seeded.
Proof.
  unfold crawlPrepare.
  destruct (URL_new P (CrawlConfig.url config) None); [| discriminate].
  cbn.
  destruct (value (seedFrontier P fuel config _ _ _)) eqn:E; [| discriminate].
  intros [= _ <-]. exact (seedFrontier_NoDup _ _ _ _ _ _ E).
Qed.

(** A crawl is its preparation followed by the loop over the seeded set. *)
Lemma crawlSiteRun_prepared fuel config w robotsTxt seeded :
  value (crawlPrepare P fuel config w) = Returned (robotsTxt, seeded) ->
  let p := crawlPrepare P fuel config w in
  let o := crawlLoop P robotsTxt
             (orDefault 100 (CrawlConfig.maxPages config)) seeded
             (mkFrontier [] seeded []) (after p) in
  crawlSiteRun P fuel config w =
  mkOut (Returned (mkCrawlRun seeded (value o))) (after o)
        (trace p ++ trace o).
Proof.
  unfold crawlPrepare, crawlSiteRun, crawlWithPolicy.
  destruct (URL_new P (CrawlConfig.url config) None); [| discriminate].
  cbn.
  destruct (value (seedFrontier P fuel config _ _ _)) eqn:E; [| discriminate].
  intros [= <- <-]. unfold bind. cbn [value after trace]. rewrite E.
  cbn. now rewrite !app_nil_r, app_assoc.
Qed.

Lemma crawlSiteRun_returned fuel config w run :
  value (crawlSiteRun P fuel config w) = Returned run ->
  exists robotsTxt,
    value (crawlPrepare P fuel config w) = Returned (robotsTxt, snapshot run).
Proof.
  unfold crawlPrepare, crawlSiteRun, crawlWithPolicy.
  destruct (URL_new P (CrawlConfig.url config) None); [| discriminate].
  cbn.
  destruct (value (seedFrontier P fuel config _ _ _)) eqn:E; [| discriminate].
  cbn. intros [= <-]. cbn. eauto.
Qed.

Lemma crawlSite_run fuel config w :
  crawlSite P fuel config w =
  let o := crawlSiteRun P fuel config w in
  mkOut (match value o with
         | Returned run => Returned (results (final run))
         | Threw => Threw
         | Diverged => Diverged
         end) (after o) (trace o).
Proof. unfold crawlSite, bind. cbn. now rewrite app_nil_r. Qed.

(** A prepared crawl always returns, and its loop is a sequence of
    attempts over a prefix of the seeded set. *)
Lemma crawlSiteRun_attempts fuel config w robotsTxt seeded :
  value (crawlPrepare P fuel config w) = Returned (robotsTxt, seeded) ->
  let maxPages := orDefault 100 (CrawlConfig.maxPages config) in
  exists st attempts rest,
    value (crawlSiteRun P fuel config w) = Returned (mkCrawlRun seeded st)
    /\ seeded = map fst attempts ++ rest
    /\ trace (crawlSiteRun P fuel config w) =
       trace (crawlPrepare P fuel config w)
       ++ flat_map (turnEvents (politenessDelay robotsTxt)) attempts
    /\ map PageAnalysis.url (results st) = succeeded attempts
    /\ crawledUrls st = succeeded attempts
    /\ (rest = [] \/ Z.of_nat (length (crawledUrls st)) >= maxPages)
    /\ Z.of_nat (length (crawledUrls st)) <= Z.max maxPages 0.
Proof.
  intros Hp maxPages.
  rewrite (crawlSiteRun_prepared _ _ _ _ _ Hp). cbn [value trace].
  fold maxPages.
  destruct (crawlLoop_attempts robotsTxt maxPages seeded
              (mkFrontier [] seeded []) (after (crawlPrepare P fuel config w)))
    as (attempts & rest & fresh & H1 & H2 & H3 & H4 & H5 & H6 & H7).
  { exact (crawlPrepare_NoDup _ _ _ _ _ Hp). }
  { intros x _ []. }
  cbn [results crawledUrls app length] in *.
  exists (value (crawlLoop P robotsTxt maxPages seeded
                   (mkFrontier [] seeded [])
                   (after (crawlPrepare P fuel config w)))), attempts, rest.
  rewrite H2, H3, H4. repeat split; auto.
Qed.

(** *** Lists of attempts *)

Lemma succeeded_length attempts :
  length (succeeded attempts) = length (filter snd attempts).
Proof. apply length_map. Qed.

Lemma succeeded_incl attempts u :
  In u (succeeded attempts) -> In u (map fst attempts).
Proof.
  unfold succeeded. rewrite !in_map_iff.
  intros [a [<- Ha]]. apply filter_In in Ha. exists a. tauto.
Qed.

Lemma succeeded_NoDup attempts :
  NoDup (map fst attempts) -> NoDup (succeeded attempts).
Proof.
  unfold succeeded.
  induction attempts as [| [u b] l IH]; cbn; [constructor |].
  intros H. inversion H as [| ? ? Hn Hl]; subst.
  destruct b; cbn; [| now apply IH].
  constructor; [| now apply IH].
  intros Hin. apply Hn. now apply succeeded_incl.
Qed.


Lemma all_succeeded delay attempts :
  (forall u, ~ In (ErrorCrawling u) (flat_map (turnEvents delay) attempts)) ->
  succeeded attempts = map fst attempts.
Proof.
  unfold succeeded.
  induction attempts as [| [u b] l IH]; cbn; [reflexivity |].
  intros H. destruct b; cbn.
  - f_equal. apply IH. intros v Hv. apply (H v). unfold turnEvents. cbn. auto.
  - exfalso. apply (H u). unfold turnEvents. cbn. auto.
Qed.

Lemma prefix_firstn {A} (l a rest : list A) :
  l = a ++ rest -> a = firstn (length a) l.
Proof.
  intros ->. rewrite firstn_app, Nat.sub_diag, firstn_all. cbn.
  now rewrite app_nil_r.
Qed.

(** *** Budget and uniqueness *)

(** C2. Once the seeded set is at hand, [crawlSite] returns a list of at
    most [maxPages] records whose addresses are pairwise distinct; when the
    seeded set holds more than [maxPages] addresses and each of the first
    [maxPages] of them can be analysed, in whatever world it is loaded, the
    list has exactly [maxPages] records, those of the first [maxPages]
    seeded addresses in insertion order. [maxPages] is a count: it is not
    negative. *)
Theorem crawlSite_budget fuel config w robotsTxt seeded :
  value (crawlPrepare P fuel config w) = Returned (robotsTxt, seeded) ->
  0 <= orDefault 100 (CrawlConfig.maxPages config) ->
  exists pages,
    value (crawlSite P fuel config w) = Returned pages
    /\ Z.of_nat (length pages) <= orDefault 100 (CrawlConfig.maxPages config)
    /\ NoDup (map PageAnalysis.url pages)
    /\ (Z.of_nat (length seeded)
          > orDefault 100 (CrawlConfig.maxPages config) ->
        (forall u w',
            In u (firstn
                    (Z.to_nat (orDefault 100 (CrawlConfig.maxPages config)))
                    seeded) ->
            value (analyzePage P u None w') <> None) ->
        Z.of_nat (length pages) = orDefault 100 (CrawlConfig.maxPages config)
        /\ map PageAnalysis.url pages =
           firstn (Z.to_nat (orDefault 100 (CrawlConfig.maxPages config)))
                  seeded).
Proof.
  intros Hp Hmax.
  destruct (crawlSiteRun_attempts _ _ _ _ _ Hp)
    as (st & attempts & rest & Hv & Hs & Ht & Hu & Hc & Hstop & Hle).
  set (maxPages := orDefault 100 (CrawlConfig.maxPages config)) in *.
  assert (Hlen : length (results st) = length (crawledUrls st))
    by (rewrite Hc, <- Hu; symmetry; apply length_map).
  exists (results st). rewrite crawlSite_run. cbn [value trace].
  rewrite Hv. cbn [final].
  split; [reflexivity |]. split; [| split].
  - rewrite Hlen. lia.
  - rewrite Hu. apply succeeded_NoDup.
    pose proof (crawlPrepare_NoDup _ _ _ _ _ Hp) as Hnd.
    rewrite Hs in Hnd. exact (NoDup_app_remove_r _ _ Hnd).
  - intros Hmore Hok.
    assert (Hall : succeeded attempts = map fst attempts).
    { apply (all_succeeded (politenessDelay robotsTxt)).
      rewrite (crawlSiteRun_prepared _ _ _ _ _ Hp) in Ht.
      cbn [trace] in Ht. apply app_inv_head in Ht. rewrite <- Ht.
      apply crawlLoop_unfailing.
      - exact (crawlPrepare_NoDup _ _ _ _ _ Hp).
      - intros x _ [].
      - cbn [crawledUrls length]. fold maxPages.
        rewrite Z.sub_0_r. exact Hok. }
    assert (Hn : length (map fst attempts) = Z.to_nat maxPages).
    { rewrite Hc, Hall in Hstop, Hle.
      destruct Hstop as [-> | Hge]; [| lia].
      rewrite app_nil_r in Hs. rewrite Hs in Hmore. lia. }
    split.
    + rewrite Hlen, Hc, Hall, Hn. lia.
    + rewrite Hu, Hall, <- Hn. exact (prefix_firstn _ _ _ Hs).
Qed.

(** *** Failed pages *)


(** *** Politeness *)


(** *** The frontier *)

Lemma offerLink_grows pageUrl crawled toCrawl link :
  incl toCrawl (offerLink P pageUrl crawled toCrawl link).
Proof.
  unfold offerLink. intros x Hx.
  destruct (URL_new P (LinkInfo.href link) (Some pageUrl)); [| assumption].
  destruct (negb (JS.Set_has crawled _)); [| assumption].
  apply Set_add_In. now left.
Qed.

(** An address enters [urlsToCrawl] through a link only when it is not in
    [crawledUrls]. *)
Lemma offerLink_new pageUrl crawled toCrawl link x :
  In x (offerLink P pageUrl crawled toCrawl link) ->
  ~ In x toCrawl -> ~ In x crawled.
Proof.
  unfold offerLink.
  destruct (URL_new P (LinkInfo.href link) (Some pageUrl)) as [u |];
    [| contradiction].
  destruct (JS.Set_has crawled (URL.href u)) eqn:E; cbn; [contradiction |].
  intros Hin Hnew. apply Set_add_In in Hin.
  destruct Hin as [Hin | ->]; [contradiction |].
  now apply Set_has_notIn.
Qed.

Lemma offerLinks_grow pageUrl crawled links :
  forall toCrawl,
    incl toCrawl (fold_left (offerLink P pageUrl crawled) links toCrawl).
Proof.
  induction links as [| link rest IH]; intros toCrawl; cbn.
  - apply incl_refl.
  - eapply incl_tran; [apply offerLink_grows | apply IH].
Qed.

Lemma offerStates_covered pageUrl res crawled links :
  forall toCrawl,
    incl crawled toCrawl ->
    Forall (fun st => incl (crawledUrls st) (urlsToCrawl st))
           (offerStates P pageUrl res crawled toCrawl links).
Proof.
  induction links as [| link rest IH]; intros toCrawl H; cbn; constructor.
  - cbn. eapply incl_tran; [exact H | apply offerLink_grows].
  - apply IH. eapply incl_tran; [exact H | apply offerLink_grows].
Qed.

Lemma recordPage_covered pageUrl analysis st :
  incl (crawledUrls st) (urlsToCrawl st) ->
  In pageUrl (urlsToCrawl st) ->
  Forall (fun s => incl (crawledUrls s) (urlsToCrawl s))
         (recordPageStates P pageUrl analysis st)
  /\ incl (crawledUrls (recordPage P pageUrl analysis st))
          (urlsToCrawl (recordPage P pageUrl analysis st))
  /\ incl (urlsToCrawl st) (urlsToCrawl (recordPage P pageUrl analysis st)).
Proof.
  intros Hinc Hpage.
  assert (Hadd : incl (JS.Set_add (crawledUrls st) pageUrl) (urlsToCrawl st)).
  { intros x Hx. apply Set_add_In in Hx. destruct Hx as [Hx | ->]; auto. }
  unfold recordPageStates, recordPage. cbn. repeat split.
  - constructor; [exact Hinc |]. constructor; [exact Hadd |].
    now apply offerStates_covered.
  - eapply incl_tran; [exact Hadd | apply offerLinks_grow].
  - apply offerLinks_grow.
Qed.

Lemma crawlLoopStates_covered robotsTxt maxPages pages :
  forall st w,
    incl (crawledUrls st) (urlsToCrawl st) ->
    incl pages (urlsToCrawl st) ->
    Forall (fun s => incl (crawledUrls s) (urlsToCrawl s))
           (crawlLoopStates P robotsTxt maxPages pages st w).
Proof.
  induction pages as [| pageUrl rest IH]; intros st w Hinc Hpages;
    cbn [crawlLoopStates]; constructor; try assumption; [constructor |].
  assert (Hrest : incl rest (urlsToCrawl st))
    by (intros x Hx; apply Hpages; now right).
  destruct (Z.of_nat (length (crawledUrls st)) >=? maxPages); [constructor |].
  destruct (JS.Set_has (crawledUrls st) pageUrl); [now apply IH |].
  cbn zeta.
  destruct (value (analyzePage P pageUrl None w)) as [analysis |];
    [| now apply IH].
  destruct (recordPage_covered pageUrl analysis st Hinc) as (H1 & H2 & H3).
  { apply Hpages. now left. }
  apply Forall_app. split; [exact H1 |].
  apply IH; [exact H2 |]. eapply incl_tran; [exact Hrest | exact H3].
Qed.

(** The variables the loop ends with are among the recorded values. *)
Lemma crawlLoopStates_final robotsTxt maxPages pages :
  forall st w,
    In (value (crawlLoop P robotsTxt maxPages pages st w))
       (crawlLoopStates P robotsTxt maxPages pages st w).
Proof.
  induction pages as [| pageUrl rest IH]; intros st w;
    cbn [crawlLoopStates crawlLoop]; [now left |].
  destruct (Z.of_nat (length (crawledUrls st)) >=? maxPages); [now left |].
  destruct (JS.Set_has (crawledUrls st) pageUrl); [right; apply IH |].
  unfold bind at 1. cbn [value after]. cbn zeta.
  destruct (value (analyzePage P pageUrl None w)) as [analysis |];
    unfold bind at 1; cbn [emit value after]; right.
  - apply in_or_app. right. apply IH.
  - apply IH.
Qed.

Lemma crawlSiteStates_final fuel config w run :
  value (crawlSiteRun P fuel config w) = Returned run ->
  In (final run) (crawlSiteStates P fuel config w).
Proof.
  intros Hr. destruct (crawlSiteRun_returned _ _ _ _ Hr) as [robotsTxt Hp].
  unfold crawlSiteStates. rewrite Hp.
  rewrite (crawlSiteRun_prepared _ _ _ _ _ Hp) in Hr. cbn in Hr.
  injection Hr as <-. cbn [final]. apply crawlLoopStates_final.
Qed.

(** C3, as the code has it. [urlsToCrawl] is never shrunk, so the two sets
    are not kept apart: whatever values the loop variables go through,
    [crawledUrls] is included in [urlsToCrawl]; and a link adds an address
    to [urlsToCrawl] only when that address is not in [crawledUrls]. *)
Theorem frontier_crawled_within_pending fuel config w st :
  In st (crawlSiteStates P fuel config w) ->
  incl (crawledUrls st) (urlsToCrawl st)
  /\ forall pageUrl link x,
       In x (offerLink P pageUrl (crawledUrls st) (urlsToCrawl st) link) ->
       ~ In x (urlsToCrawl st) -> ~ In x (crawledUrls st).
Proof.
  intros Hin. split; [| intros pageUrl link x; apply offerLink_new].
  revert st Hin. apply Forall_forall. unfold crawlSiteStates.
  destruct (value (crawlPrepare P fuel config w)) as [[r seeded] | |];
    try constructor.
  apply crawlLoopStates_covered; cbn; [intros x [] | apply incl_refl].
Qed.

(** *** Robots policy *)

Lemma crawlLoop_policy r r' maxPages pages :
  crawlDelay r = crawlDelay r' ->
  forall st w,
    crawlLoop P r maxPages pages st w = crawlLoop P r' maxPages pages st w.
Proof.
  intros Hd. assert (Hp : politenessDelay r = politenessDelay r')
    by (unfold politenessDelay; now rewrite Hd).
  induction pages as [| pageUrl rest IH]; intros st w; cbn [crawlLoop];
    [reflexivity |].
  destruct (Z.of_nat (length (crawledUrls st)) >=? maxPages); [reflexivity |].
  destruct (JS.Set_has (crawledUrls st) pageUrl); [apply IH |].
  unfold bind. cbn [value after trace emit].
  destruct (value (analyzePage P pageUrl None w)); rewrite ?Hp, IH;
    reflexivity.
Qed.

Lemma crawlWithPolicy_clearDisallowed fuel config baseUrl robotsTxt w :
  crawlWithPolicy P fuel config baseUrl robotsTxt w =
  crawlWithPolicy P fuel config baseUrl (clearDisallowed robotsTxt) w.
Proof.
  unfold crawlWithPolicy, bind. cbn [value after trace].
  change (seedFrontier P fuel config baseUrl (clearDisallowed robotsTxt))
    with (seedFrontier P fuel config baseUrl robotsTxt).
  destruct (value (seedFrontier P fuel config baseUrl robotsTxt w));
    [| reflexivity].
  now rewrite (crawlLoop_policy robotsTxt (clearDisallowed robotsTxt)).
Qed.

(** C10. A crawl is the same run as the crawl that, once the policy is
    resolved, drops its disallow patterns: same outcome and frontier (so the
    same visited set), same world, same page loads in the same order. *)
Theorem disallow_never_consulted fuel config w :
  crawlSiteRun P fuel config w =
  match URL_new P (CrawlConfig.url config) None with
  | None => mkOut Threw w []
  | Some seed =>
      let p := resolvePolicy P config (URL.origin seed) w in
      let o := crawlWithPolicy P fuel config (URL.origin seed)
                 (clearDisallowed (value p)) (after p) in
      mkOut (value o) (after o) (trace p ++ trace o)
  end.
Proof.
  unfold crawlSiteRun.
  destruct (URL_new P (CrawlConfig.url config) None) as [seed |];
    [| reflexivity].
  cbn zeta. rewrite <- crawlWithPolicy_clearDisallowed. reflexivity.
Qed.

Lemma fetchRobotsTxt_fetched baseUrl w robotsUrl f w' :
  URL_new P "/robots.txt" (Some baseUrl) = Some robotsUrl ->
  browse P (URL.href robotsUrl) None 30000 w = (Some f, w') ->
  value (fetchRobotsTxt P baseUrl w) = parseRobotsTxt (html f).
Proof.
  intros Hu Hb. unfold fetchRobotsTxt, bind, fetchPage. rewrite Hu, Hb.
  reflexivity.
Qed.

(** C7, as the code has it. Each [crawl-delay:] line overwrites the delay,
    so the last such line alone decides: the document yields the number
    [parseInt] reads on that line when it is not zero, and no delay when
    that line is not a number (or is zero) or when there is no such line,
    whatever the lines before it say. *)
Theorem fetchRobotsTxt_last_line_decides baseUrl w robotsUrl f w' :
  URL_new P "/robots.txt" (Some baseUrl) = Some robotsUrl ->
  browse P (URL.href robotsUrl) None 30000 w = (Some f, w') ->
  crawlDelay (value (fetchRobotsTxt P baseUrl w)) =
  match lastCrawlDelayLine (JS.splitLines (html f)) with
  | Some line =>
      match JS.parseInt (crawlDelayText line) with
      | Some d => if d =? 0 then None else Some d
      | None => None
      end
  | None => None
  end.
Proof.
  intros Hu Hb. rewrite (fetchRobotsTxt_fetched _ _ _ _ _ Hu Hb).
  rewrite parseRobotsTxt_crawlDelay.
  destruct (lastCrawlDelayLine _) as [line |]; [| reflexivity].
  destruct (JS.parseInt _) as [[| d | d] |]; reflexivity.
Qed.

(** *** Where the sleeps come from *)













(** *** Link classification *)

Lemma startsWith_slash_not_http href :
  JS.startsWith href "/" || negb (JS.startsWith href "http")
  = negb (JS.startsWith href "http").
Proof.
  unfold JS.startsWith. destruct href as [| c rest]; [reflexivity |].
  cbn [String.prefix].
  destruct (ascii_dec "/" c) as [<- | _]; [| reflexivity].
  now destruct rest.
Qed.

(** C8, as the code has it. For every link of an analysed page: when its
    [href] resolves against the page's address, [isInternal] tells whether
    the resolved host name is the host name of that page's own address;
    when it does not resolve, [isInternal] holds exactly when the [href]
    does not begin with [http]. *)
Theorem analyzePage_link_classes url sel w analysis :
  value (analyzePage P url sel w) = Some analysis ->
  exists pageUrl,
    URL_new P url None = Some pageUrl
    /\ Forall
         (fun link =>
            match URL_new P (LinkInfo.href link) (Some url) with
            | Some linkUrl =>
                LinkInfo.isInternal link =
                (URL.hostname linkUrl =? URL.hostname pageUrl)%string
            | None =>
                LinkInfo.isInternal link =
                negb (JS.startsWith (LinkInfo.href link) "http")
            end)
         (PageAnalysis.links analysis).
Proof.
  unfold analyzePage, bind. cbn [value].
  destruct (value (fetchPage P url sel 30000 w)) as [f |]; [| discriminate].
  destruct (URL_new P url None) as [pageUrl |]; cbn; [| discriminate].
  intros [= <-]. exists pageUrl. split; [reflexivity |]. cbn.
  apply Forall_forall. intros link Hin. apply in_map_iff in Hin.
  destruct Hin as [el [<- _]]. unfold linkInfo, isInternalLink. cbn.
  destruct (URL_new P (orEmpty (attr_href el)) (Some url)); [reflexivity |].
  apply startsWith_slash_not_http.
Qed.

End Properties.

(** ** Runs on the sample web *)

Module Runs.

Import Sample.

Ltac run := vm_compute; reflexivity.
Ltac absent := vm_compute; intuition discriminate.

(** The three examples of the specification's link classification. *)
Example root_relative_is_internal :
  isInternalLink web "example.com" "https://example.com/a" "/b" = true.
Proof. run. Qed.

Example other_host_is_external :
  isInternalLink web "example.com" "https://example.com/a"
                 "https://other.com/b" = false.
Proof. run. Qed.

Example relative_path_is_internal :
  isInternalLink web "example.com" "https://example.com/a" "contact" = true.
Proof. run. Qed.

(** References that do not resolve: [//] counts as internal, [http://] as
    external. *)
Example unresolved_links :
  URL_new "//" (Some "https://example.com/a") = None
  /\ isInternalLink web "example.com" "https://example.com/a" "//" = true
  /\ URL_new "http://" (Some "https://example.com/a") = None
  /\ isInternalLink web "example.com" "https://example.com/a" "http://"
     = false.
Proof. repeat split; run. Qed.

(** The crawl of the sample site through its sitemap. *)
Example sitemap_crawl_trace :
  trace (crawlSite web 5 (config 10 true) 0%nat) =
  [Fetch "https://example.com/sitemap.xml";
   Fetch "https://example.com/pages.xml";
   Fetch "https://example.com/b";
   Fetch home; Sleep 1000;
   Fetch down; ErrorCrawling down;
   Fetch foreign; Sleep 1000].
Proof. run. Qed.

Example sitemap_crawl_results :
  value (crawlSite web 5 (config 10 true) 0%nat)
  = Returned [homeAnalysis; foreignAnalysis].
Proof. run. Qed.

(** An address under a [Disallow:] pattern is loaded all the same. *)
Example disallowed_page_is_loaded :
  disallowed (value (fetchRobotsTxt web "https://slow.example" 0%nat))
  = ["/private"]
  /\ trace (crawlSite web 0 (politeConfig "https://slow.example/private")
                      0%nat)
     = [Fetch "https://slow.example/robots.txt";
        Fetch "https://slow.example/private"; Sleep 1000].
Proof. split; run. Qed.

(** C1 on the sample site: the home page links to [/b]; the crawl adds
    [https://example.com/b] to [urlsToCrawl] and returns with one page
    crawled out of a budget of ten, never having loaded it. *)
Theorem discovered_link_never_crawled :
  exists run,
    value (crawlSiteRun web 0 (config 10 false) 0%nat) = Returned run
    /\ In "https://example.com/b" (urlsToCrawl (final run))
    /\ crawledUrls (final run) = [home]
    /\ ~ In (Fetch "https://example.com/b")
            (trace (crawlSiteRun web 0 (config 10 false) 0%nat)).
Proof.
  eexists. split; [run |]. split; [| split].
  - vm_compute. auto.
  - run.
  - absent.
Qed.

(** C6 on the sample site: the index document lists the sitemap
    [pages.xml] and the page [https://example.com/b]; [fetchSitemap] loads
    the page as if it were a sitemap. *)
Theorem urlset_entry_resolved_as_sitemap :
  cheerio_xml indexXml =
    mkSitemapDoc ["https://example.com/pages.xml"]
                 ["https://example.com/b"] 1
  /\ trace (fetchSitemap web 5 "https://example.com/sitemap.xml" 0%nat) =
     [Fetch "https://example.com/sitemap.xml";
      Fetch "https://example.com/pages.xml";
      Fetch "https://example.com/b"]
  /\ value (fetchSitemap web 5 "https://example.com/sitemap.xml" 0%nat) =
     Some seededFromSitemap.
Proof. repeat split; run. Qed.

(** *** The theorems at work *)

Lemma crawlSite_budget_witness :
  exists pages,
    value (crawlSite web 5 (config 1 true) 0%nat) = Returned pages
    /\ Z.of_nat (length pages) = 1
    /\ map PageAnalysis.url pages = [home].
Proof.
  destruct (crawlSite_budget web 5 (config 1 true) 0%nat emptyRobotsTxt
              seededFromSitemap) as (pages & Hv & _ & _ & Hfull).
  - vm_compute. reflexivity.
  - vm_compute. discriminate.
  - exists pages. split; [exact Hv |]. apply Hfull.
    + vm_compute. reflexivity.
    + intros u w' Hin. vm_compute in Hin. destruct Hin as [<- | []].
      vm_compute. discriminate.
Defined.



Lemma frontier_crawled_within_pending_witness :
  In afterHome (crawlSiteStates web 0 (config 10 false) 0%nat)
  /\ incl (crawledUrls afterHome) (urlsToCrawl afterHome).
Proof.
  assert (H : In afterHome (crawlSiteStates web 0 (config 10 false) 0%nat))
    by (vm_compute; auto 8).
  split; [exact H |].
  exact (proj1 (frontier_crawled_within_pending web 0 (config 10 false)
                  0%nat afterHome H)).
Defined.

Lemma fetchRobotsTxt_last_line_decides_witness :
  crawlDelay (value (fetchRobotsTxt web "https://slow.example" 0%nat)) =
  match lastCrawlDelayLine (JS.splitLines slowRobots) with
  | Some line =>
      match JS.parseInt (crawlDelayText line) with
      | Some d => if d =? 0 then None else Some d
      | None => None
      end
  | None => None
  end.
Proof.
  apply (fetchRobotsTxt_last_line_decides web "https://slow.example" 0%nat
           (URL.mk "slow.example" "https://slow.example"
                   "https://slow.example/robots.txt")
           (mkFetchResult slowRobots 200 30) 1%nat).
  - vm_compute. reflexivity.
  - vm_compute. reflexivity.
Defined.


Lemma analyzePage_link_classes_witness :
  exists pageUrl,
    URL_new home None = Some pageUrl
    /\ Forall
         (fun link =>
            match URL_new (LinkInfo.href link) (Some home) with
            | Some linkUrl =>
                LinkInfo.isInternal link =
                (URL.hostname linkUrl =? URL.hostname pageUrl)%string
            | None =>
                LinkInfo.isInternal link =
                negb (JS.startsWith (LinkInfo.href link) "http")
            end)
         (PageAnalysis.links homeAnalysis).
Proof.
  apply (analyzePage_link_classes web home None 0%nat homeAnalysis).
  vm_compute. reflexivity.
Defined.

(** With a budget of one page the sitemap crawl stops after the first
    seeded address, no page having failed. *)
Example budget_of_one :
  value (crawlSite web 5 (config 1 true) 0%nat) = Returned [homeAnalysis]
  /\ trace (crawlSite web 5 (config 1 true) 0%nat) =
     [Fetch "https://example.com/sitemap.xml";
      Fetch "https://example.com/pages.xml";
      Fetch "https://example.com/b";
      Fetch home; Sleep 1000].
Proof. split; run. Qed.

(** A crawl under a robots document whose crawl delay is 0: the page is
    followed by the default sleep. *)
Example zero_delay_crawl :
  value (crawlPrepare web 0 (politeConfig "https://zero.example/") 0%nat)
  = Returned (emptyRobotsTxt, ["https://zero.example/"])
  /\ trace (crawlSite web 0 (politeConfig "https://zero.example/") 0%nat) =
     [Fetch "https://zero.example/robots.txt";
      Fetch "https://zero.example/"; Sleep 1000].
Proof. split; run. Qed.

(** *** Where the code departs from the specification *)

(** C3 as stated fails: once the home page is crawled its address is in
    both sets. *)
Lemma frontier_not_disjoint :
  exists st,
    In st (crawlSiteStates web 0 (config 10 false) 0%nat)
    /\ ~ disjoint (urlsToCrawl st) (crawledUrls st).
Proof.
  exists afterHome. split; [vm_compute; auto 8 |].
  intros H. apply (H home); vm_compute; auto.
Qed.



(** C7 as stated fails: a delay of 5 followed by a [crawl-delay:] line that
    is not a number leaves no delay at all, where the last valid value
    is 5. *)
Lemma crawlDelay_reset_by_malformed_line :
  Spec.lastValidCrawlDelay (JS.splitLines slowRobots) = Some 5
  /\ crawlDelay (value (fetchRobotsTxt web "https://slow.example" 0%nat))
     = None.
Proof. split; run. Qed.

(** C8 as stated fails: the crawl of [example.com] reaches a page of
    [other.com] through the sitemap; its link [/y] resolves to the host
    [other.com], which is not the host of the crawl's origin, and is
    classified internal. *)
Lemma internal_link_on_foreign_page :
  exists pages page link linkUrl seed,
    value (crawlSite web 5 (config 10 true) 0%nat) = Returned pages
    /\ In page pages
    /\ In link (PageAnalysis.links page)
    /\ URL_new (LinkInfo.href link) (Some (PageAnalysis.url page))
       = Some linkUrl
    /\ URL_new (CrawlConfig.url (config 10 true)) None = Some seed
    /\ LinkInfo.isInternal link = true
    /\ URL.hostname linkUrl <> URL.hostname seed.
Proof.
  exists [homeAnalysis; foreignAnalysis], foreignAnalysis,
         (LinkInfo.mk "/y" "y" true false),
         (URL.mk "other.com" "https://other.com" "https://other.com/y"),
         (URL.mk "example.com" "https://example.com" home).
  repeat split; try run; try (vm_compute; auto); vm_compute; discriminate.
Qed.

End Runs.

(** ** The audit service: what a report can hold *)

Section AuditReports.

Import Audit.
Local Open Scope nat_scope.

(** *** Subsequences *)

Lemma Subseq_app {A} (a a' b b' : list A) :
  Subseq a a' -> Subseq b b' -> Subseq (a ++ b) (a' ++ b').
Proof.
  intros Ha Hb. induction Ha; cbn; [assumption | |]; now constructor.
Qed.

Lemma Subseq_map {A B} (f : A -> B) (l l' : list A) :
  Subseq l l' -> Subseq (map f l) (map f l').
Proof. intros H. induction H; cbn; now constructor. Qed.

Lemma Subseq_filter_length {A} (f : A -> bool) (l l' : list A) :
  Subseq l l' -> length (filter f l) <= length (filter f l').
Proof.
  intros H. induction H; cbn; [lia | |]; destruct (f x); cbn; lia.
Qed.

Lemma Subseq_In {A} (l l' : list A) x : Subseq l l' -> In x l -> In x l'.
Proof.
  intros H. induction H; cbn; [tauto | tauto |]. intros [-> | Hx]; auto.
Qed.

Lemma Subseq_NoDup {A} (l l' : list A) : Subseq l l' -> NoDup l' -> NoDup l.
Proof.
  intros H. induction H; intros Hnd; [constructor | |];
    inversion Hnd as [| ? ? Hx Hl]; subst; [auto |].
  constructor; [| auto]. intros Hin. apply Hx. exact (Subseq_In _ _ _ H Hin).
Qed.

Ltac subseq :=
  repeat first [apply Subseq_nil | apply Subseq_take | apply Subseq_skip].

(** *** Each check reports its own kinds, in its own order *)

Ltac by_cases_on_checks :=
  repeat match goal with
         | |- context [if Nat.ltb 0 ?n then _ else _] =>
             destruct (Nat.ltb 0 n) eqn:?
         end.

Lemma checkTitles_kinds pages :
  Subseq (map issueKind (checkTitles pages)) (firstn 3 issueCatalogue).
Proof. unfold checkTitles. by_cases_on_checks; cbn; subseq. Qed.

Lemma checkMetaDescriptions_kinds pages :
  Subseq (map issueKind (checkMetaDescriptions pages)) (firstn 3 (skipn 3 issueCatalogue)).
Proof. unfold checkMetaDescriptions. by_cases_on_checks; cbn; subseq. Qed.

Lemma checkH1Tags_kinds pages :
  Subseq (map issueKind (checkH1Tags pages)) (firstn 2 (skipn 6 issueCatalogue)).
Proof. unfold checkH1Tags. by_cases_on_checks; cbn; subseq. Qed.

Lemma checkImages_kinds pages :
  Subseq (map issueKind (checkImages pages)) (firstn 1 (skipn 8 issueCatalogue)).
Proof. unfold checkImages. by_cases_on_checks; cbn; subseq. Qed.

Lemma checkContent_kinds pages :
  Subseq (map issueKind (checkContent pages)) (firstn 1 (skipn 9 issueCatalogue)).
Proof. unfold checkContent. by_cases_on_checks; cbn; subseq. Qed.

Lemma checkCanonical_kinds pages :
  Subseq (map issueKind (checkCanonical pages)) (firstn 1 (skipn 10 issueCatalogue)).
Proof. unfold checkCanonical. by_cases_on_checks; cbn; subseq. Qed.

Lemma checkOpenGraph_kinds pages :
  Subseq (map issueKind (checkOpenGraph pages)) (firstn 1 (skipn 11 issueCatalogue)).
Proof. unfold checkOpenGraph. by_cases_on_checks; cbn; subseq. Qed.

Lemma checkSchema_kinds pages :
  Subseq (map issueKind (checkSchema pages)) (firstn 1 (skipn 12 issueCatalogue)).
Proof. unfold checkSchema. by_cases_on_checks; cbn; subseq. Qed.

Lemma checkBrokenLinks_kinds pages :
  Subseq (map issueKind (checkBrokenLinks pages)) (firstn 1 (skipn 13 issueCatalogue)).
Proof. unfold checkBrokenLinks. by_cases_on_checks; cbn; subseq. Qed.

Lemma checkSSL_kinds pages :
  Subseq (map issueKind (checkSSL pages)) (firstn 1 (skipn 14 issueCatalogue)).
Proof. unfold checkSSL. by_cases_on_checks; cbn; subseq. Qed.

Lemma checkDuplicates_kinds pages :
  Subseq (map issueKind (checkDuplicates pages)) (skipn 15 issueCatalogue).
Proof. unfold checkDuplicates. by_cases_on_checks; cbn; subseq. Qed.

Lemma auditIssues_kinds pages :
  Subseq (map issueKind (auditIssues pages)) issueCatalogue.
Proof.
  unfold auditIssues. cbn [app]. rewrite !map_app.
  change issueCatalogue with
    ((((((((((firstn 3 issueCatalogue
              ++ firstn 3 (skipn 3 issueCatalogue))
             ++ firstn 2 (skipn 6 issueCatalogue))
            ++ firstn 1 (skipn 8 issueCatalogue))
           ++ firstn 1 (skipn 9 issueCatalogue))
          ++ firstn 1 (skipn 10 issueCatalogue))
         ++ firstn 1 (skipn 11 issueCatalogue))
        ++ firstn 1 (skipn 12 issueCatalogue))
       ++ firstn 1 (skipn 13 issueCatalogue))
      ++ firstn 1 (skipn 14 issueCatalogue))
     ++ skipn 15 issueCatalogue).
  repeat apply Subseq_app;
    auto using checkTitles_kinds, checkMetaDescriptions_kinds,
      checkH1Tags_kinds, checkImages_kinds, checkContent_kinds,
      checkCanonical_kinds, checkOpenGraph_kinds, checkSchema_kinds,
      checkBrokenLinks_kinds, checkSSL_kinds, checkDuplicates_kinds.
Qed.

Lemma severity_count issues s :
  length (filter (fun i => severity_eqb (severity i) s) issues) =
  length (filter (fun k => severity_eqb (snd k) s) (map issueKind issues)).
Proof.
  induction issues as [| i l IH]; cbn; [reflexivity |].
  destruct (severity_eqb (severity i) s); cbn; now rewrite IH.
Qed.

Lemma severity_total issues :
  length (filter (fun i => severity_eqb (severity i) error) issues)
  + length (filter (fun i => severity_eqb (severity i) warning) issues)
  + length (filter (fun i => severity_eqb (severity i) notice) issues)
  = length issues.
Proof.
  induction issues as [| i l IH]; cbn; [reflexivity |].
  destruct (severity i); cbn; lia.
Qed.

(** X1. Whatever the pages, the summary of an audit counts kinds of issue,
    not pages: at most 6 errors, 8 warnings and 3 notices, and the three
    counts add up to the number of issues of the report. *)
Theorem audit_summary_bounds pages :
  let s := auditSummary (auditIssues pages) in
  errors s <= 6 /\ warnings s <= 8 /\ notices s <= 3
  /\ errors s + warnings s + notices s = length (auditIssues pages).
Proof.
  cbn zeta. unfold auditSummary. cbn [errors warnings notices].
  pose proof (auditIssues_kinds pages) as H.
  repeat split.
  - rewrite severity_count.
    exact (Subseq_filter_length
             (fun k => severity_eqb (snd k) error) _ _ H).
  - rewrite severity_count.
    exact (Subseq_filter_length
             (fun k => severity_eqb (snd k) warning) _ _ H).
  - rewrite severity_count.
    exact (Subseq_filter_length
             (fun k => severity_eqb (snd k) notice) _ _ H).
  - apply severity_total.
Qed.

(** X2. The issues of a report follow the order in which the service runs
    its checks, and no type of issue occurs twice in a report. *)
Theorem audit_issue_types_once pages :
  Subseq (map issueKind (auditIssues pages)) issueCatalogue
  /\ NoDup (map type (auditIssues pages)).
Proof.
  pose proof (auditIssues_kinds pages) as H. split; [exact H |].
  apply (Subseq_map fst) in H. rewrite map_map in H. cbn [issueKind fst] in H.
  apply (Subseq_NoDup _ _ H). cbn.
  repeat (constructor; [cbn; intuition discriminate |]). constructor.
Qed.

(** *** Affected addresses *)

Lemma nonempty_map {A B} (f : A -> B) (l : list A) :
  Nat.ltb 0 (length l) = true -> map f l <> [].
Proof. destruct l; cbn; [discriminate | discriminate]. Qed.

Lemma nonempty_length {A} (l : list A) :
  Nat.ltb 0 (length l) = true -> l <> [].
Proof. destruct l; cbn; discriminate. Qed.

Lemma nonempty_groups {A} (f : string * list string -> list A)
  (m : UrlMap) :
  (forall e, f e = [] -> snd e = []) ->
  Nat.ltb 0 (length (filter (fun e => Nat.ltb 1 (length (snd e))) m)) = true ->
  flat_map f (filter (fun e => Nat.ltb 1 (length (snd e))) m) <> [].
Proof.
  intros Hf.
  destruct (filter _ m) as [| e rest] eqn:E; [discriminate |].
  intros _. cbn. intros Heq. apply app_eq_nil in Heq.
  assert (He : In e (filter (fun e => Nat.ltb 1 (length (snd e))) m))
    by (rewrite E; now left).
  apply filter_In in He. destruct He as [_ He].
  rewrite (Hf e (proj1 Heq)) in He. discriminate.
Qed.

Ltac each_issue :=
  repeat match goal with
         | |- Forall _ (_ ++ _) => apply Forall_app; split
         | |- Forall _ (_ :: _) => constructor
         | |- Forall _ [] => constructor
         end.

(** X3. Every issue of a report names at least one affected address. *)
Theorem audit_issue_has_affected pages :
  Forall (fun i => affectedUrls i <> []) (auditIssues pages).
Proof.
  unfold auditIssues, checkTitles, checkMetaDescriptions, checkH1Tags,
    checkImages, checkContent, checkCanonical, checkOpenGraph, checkSchema,
    checkBrokenLinks, checkSSL, checkDuplicates.
  cbn zeta. cbn [app]. each_issue; by_cases_on_checks; each_issue;
    cbn [affectedUrls];
    first [ apply nonempty_map; assumption
          | apply nonempty_length; assumption
          | apply nonempty_groups;
            [intros [k urls]; cbn; now destruct urls | assumption] ].
Qed.

(** *** Grouping pages by title or description *)

Lemma Map_get_set m key value k :
  Map_get (Map_set m key value) k =
  if (key =? k)%string then Some value else Map_get m k.
Proof.
  induction m as [| [k0 v0] rest IH]; cbn.
  - reflexivity.
  - destruct (k0 =? key)%string eqn:E; cbn.
    + apply String.eqb_eq in E. subst k0.
      destruct (key =? k)%string; reflexivity.
    + destruct (k0 =? k)%string eqn:E'; [| exact IH].
      apply String.eqb_eq in E'. subst k0. now rewrite String.eqb_sym, E.
Qed.

Lemma Map_has_get m key :
  Map_has m key = match Map_get m key with Some _ => true | None => false end.
Proof.
  induction m as [| [k0 v0] rest IH]; cbn; [reflexivity |].
  destruct (k0 =? key)%string; [reflexivity | exact IH].
Qed.

Lemma Map_set_keys m key value :
  map fst (Map_set m key value) =
  if Map_has m key then map fst m else map fst m ++ [key].
Proof.
  induction m as [| [k0 v0] rest IH]; cbn; [reflexivity |].
  destruct (k0 =? key)%string; cbn; [reflexivity |].
  rewrite IH. now destruct (Map_has rest key).
Qed.

Lemma Map_has_keys m key : Map_has m key = true <-> In key (map fst m).
Proof.
  induction m as [| [k0 v0] rest IH]; cbn; [intuition discriminate |].
  rewrite orb_true_iff, IH, String.eqb_eq. tauto.
Qed.

Lemma Map_set_keys_NoDup m key value :
  NoDup (map fst m) -> NoDup (map fst (Map_set m key value)).
Proof.
  intros H. rewrite Map_set_keys. destruct (Map_has m key) eqn:E; [exact H |].
  apply NoDup_app; [exact H | repeat constructor; cbn; tauto |].
  intros x Hx [<- | []]. apply Map_has_keys in Hx. congruence.
Qed.

Lemma Map_get_In m key urls : Map_get m key = Some urls -> In (key, urls) m.
Proof.
  induction m as [| [k0 v0] rest IH]; cbn; [discriminate |].
  destruct (k0 =? key)%string eqn:E; [| auto].
  apply String.eqb_eq in E. subst. intros [= <-]. now left.
Qed.

Lemma In_Map_get m key urls :
  NoDup (map fst m) -> In (key, urls) m -> Map_get m key = Some urls.
Proof.
  induction m as [| [k0 v0] rest IH]; cbn; [tauto |].
  intros Hnd. inversion Hnd as [| ? ? Hk Hr]; subst.
  intros [[= -> ->] | Hin]; [now rewrite String.eqb_refl |].
  destruct (k0 =? key)%string eqn:E; [| auto].
  apply String.eqb_eq in E. subst. exfalso. apply Hk.
  apply in_map_iff. now exists (key, urls).
Qed.

Lemma Map_set_In m key value k urls :
  In (k, urls) (Map_set m key value) ->
  (k = key /\ urls = value) \/ In (k, urls) m.
Proof.
  induction m as [| [k0 v0] rest IH]; cbn.
  - intros [[= <- <-] | []]. now left.
  - destruct (k0 =? key)%string eqn:E; cbn.
    + apply String.eqb_eq in E. subst.
      intros [[= <- <-] | H]; [now left | right; now right].
    + intros [H | H]; [right; now left |].
      destruct (IH H) as [H' | H']; [now left | right; now right].
Qed.

(** One page: what [groupPage] does when the page has a text. *)
Lemma groupPage_text text m page t :
  text page = Some t -> (t =? "")%string = false ->
  exists urls,
    groupPage text m page =
    Map_set (if negb (Map_has m t) then Map_set m t [] else m) t
            (urls ++ [url page])
    /\ Map_get (if negb (Map_has m t) then Map_set m t [] else m) t
       = Some urls
    /\ length urls = groupSize m t.
Proof.
  intros Ht Hne. unfold groupPage, groupSize. rewrite Ht, Hne. cbn [negb].
  rewrite Map_has_get.
  destruct (Map_get m t) as [urls |] eqn:E; cbn [negb].
  - exists urls. now rewrite E.
  - exists []. rewrite Map_get_set, String.eqb_refl. auto.
Qed.

Lemma groupPage_size text m page k :
  groupSize (groupPage text m page) k =
  groupSize m k + count_occ string_dec (textsOf text [page]) k.
Proof.
  unfold textsOf. cbn [flat_map]. rewrite app_nil_r.
  destruct (text page) as [t |] eqn:Ht;
    [| unfold groupPage; rewrite Ht; cbn; lia].
  destruct (t =? "")%string eqn:Hne;
    [unfold groupPage; rewrite Ht, Hne; cbn; lia |].
  destruct (groupPage_text text m page t Ht Hne) as (urls & -> & Hg & Hl).
  unfold groupSize at 1. rewrite Map_get_set. cbn [count_occ].
  destruct (string_dec t k) as [-> | Hk].
  - rewrite String.eqb_refl, length_app, Hl. cbn. lia.
  - apply String.eqb_neq in Hk. rewrite Hk.
    destruct (negb (Map_has m t));
      [rewrite Map_get_set, Hk |]; fold (groupSize m k); lia.
Qed.

Lemma groupPage_keys text m page :
  NoDup (map fst m) -> NoDup (map fst (groupPage text m page)).
Proof.
  intros H. unfold groupPage.
  destruct (text page) as [t |]; [| exact H].
  destruct (negb (t =? "")%string); [| exact H].
  assert (H1 : NoDup (map fst (if negb (Map_has m t)
                               then Map_set m t [] else m)))
    by (destruct (negb (Map_has m t));
        [now apply Map_set_keys_NoDup | exact H]).
  destruct (Map_get _ t); [now apply Map_set_keys_NoDup | exact H1].
Qed.

Lemma groupPage_urls text m page U :
  (forall k urls, In (k, urls) m -> incl urls U) ->
  In (url page) U ->
  forall k urls, In (k, urls) (groupPage text m page) -> incl urls U.
Proof.
  intros Hm Hp k urls. unfold groupPage.
  destruct (text page) as [t |]; [| apply Hm].
  destruct (negb (t =? "")%string); [| apply Hm].
  assert (H1 : forall k urls,
             In (k, urls) (if negb (Map_has m t) then Map_set m t [] else m)
             -> incl urls U).
  { intros k' urls'. destruct (negb (Map_has m t)); [| apply Hm].
    intros H. apply Map_set_In in H.
    destruct H as [[_ ->] | H]; [intros x [] | exact (Hm _ _ H)]. }
  destruct (Map_get _ t) as [old |] eqn:E; [| apply H1].
  intros H. apply Map_set_In in H. destruct H as [[_ ->] | H];
    [| exact (H1 _ _ H)].
  apply incl_app; [exact (H1 _ _ (Map_get_In _ _ _ E)) |].
  intros x [<- | []]. exact Hp.
Qed.

Lemma textsOf_cons text page pages :
  textsOf text (page :: pages) = textsOf text [page] ++ textsOf text pages.
Proof. unfold textsOf. cbn. now rewrite app_nil_r. Qed.

Lemma groupPages_from text pages :
  forall m,
    NoDup (map fst m) ->
    NoDup (map fst (fold_left (groupPage text) pages m))
    /\ forall k,
         groupSize (fold_left (groupPage text) pages m) k =
         groupSize m k + count_occ string_dec (textsOf text pages) k.
Proof.
  induction pages as [| page rest IH]; intros m Hm; cbn [fold_left].
  - split; [exact Hm | intros k; cbn; lia].
  - destruct (IH _ (groupPage_keys text m page Hm)) as [H1 H2].
    split; [exact H1 |]. intros k.
    rewrite H2, groupPage_size, (textsOf_cons text page rest), count_occ_app.
    lia.
Qed.

Lemma groupPages_urls text pages :
  forall m U,
    (forall k urls, In (k, urls) m -> incl urls U) ->
    incl (map url pages) U ->
    forall k urls,
      In (k, urls) (fold_left (groupPage text) pages m) -> incl urls U.
Proof.
  induction pages as [| page rest IH]; intros m U Hm HU; cbn [fold_left];
    [exact Hm |].
  apply IH.
  - apply groupPage_urls; [exact Hm | apply HU; now left].
  - intros x Hx. apply HU. now right.
Qed.

Lemma repeated_element (l : list string) :
  ~ NoDup l -> exists k, 2 <= count_occ string_dec l k.
Proof.
  induction l as [| x l IH]; intros H; [exfalso; apply H; constructor |].
  destruct (in_dec string_dec x l) as [Hin | Hout].
  - exists x. cbn. destruct (string_dec x x); [| congruence].
    apply (count_occ_In string_dec) in Hin. lia.
  - destruct IH as [k Hk].
    { intros Hnd. apply H. now constructor. }
    exists k. cbn. destruct (string_dec x k); lia.
Qed.

(** Some text has two pages or more exactly when the texts of the pages are
    not pairwise distinct. *)
Lemma duplicates_found text pages :
  Nat.ltb 0 (length (filter (fun e => Nat.ltb 1 (length (snd e)))
                            (groupPages text pages))) = true
  <-> ~ NoDup (textsOf text pages).
Proof.
  unfold groupPages.
  destruct (groupPages_from text pages [] (NoDup_nil _)) as [Hk Hs].
  set (m := fold_left (groupPage text) pages []) in *.
  split.
  - destruct (filter _ m) as [| [k urls] rest] eqn:E; [discriminate |].
    intros _ Hnd.
    assert (He : In (k, urls)
                    (filter (fun e => Nat.ltb 1 (length (snd e))) m))
      by (rewrite E; now left).
    apply filter_In in He. destruct He as [Hin Hlen]. cbn [snd] in Hlen.
    apply Nat.ltb_lt in Hlen.
    pose proof (Hs k) as Hc. unfold groupSize at 1 in Hc.
    rewrite (In_Map_get _ _ _ Hk Hin) in Hc. cbn in Hc.
    pose proof (proj1 (NoDup_count_occ string_dec _) Hnd k). lia.
  - intros Hnd. destruct (repeated_element _ Hnd) as [k Hc].
    pose proof (Hs k) as Hg. unfold groupSize in Hg. cbn in Hg.
    destruct (Map_get m k) as [urls |] eqn:E; [| lia].
    assert (He : In (k, urls)
                    (filter (fun e => Nat.ltb 1 (length (snd e))) m)).
    { apply filter_In. split; [now apply Map_get_In |].
      cbn [snd]. apply Nat.ltb_lt. lia. }
    destruct (filter _ m); [destruct He | reflexivity].
Qed.

(** Where an issue of a given type can come from. *)
Lemma kind_in_catalogue (check : list PageAnalysis.t -> list SEOIssue)
  kinds pages i :
  Subseq (map issueKind (check pages)) kinds ->
  In i (check pages) -> In (type i) (map fst kinds).
Proof.
  intros Hs Hin. apply (in_map issueKind) in Hin.
  apply (Subseq_In _ _ _ Hs) in Hin.
  apply (in_map fst) in Hin. exact Hin.
Qed.

Lemma auditIssues_In pages i :
  In i (auditIssues pages) <->
  In i (checkTitles pages) \/ In i (checkMetaDescriptions pages)
  \/ In i (checkH1Tags pages) \/ In i (checkImages pages)
  \/ In i (checkContent pages) \/ In i (checkCanonical pages)
  \/ In i (checkOpenGraph pages) \/ In i (checkSchema pages)
  \/ In i (checkBrokenLinks pages) \/ In i (checkSSL pages)
  \/ In i (checkDuplicates pages).
Proof.
  unfold auditIssues. cbn [app]. rewrite !in_app_iff. tauto.
Qed.

Ltac other_check lemma :=
  match goal with
  | H : In ?i (?check ?pages), Ht : type ?i = _ |- _ =>
      apply (kind_in_catalogue check _ pages i (lemma pages)) in H;
      rewrite Ht in H; cbn in H; intuition discriminate
  end.

Lemma duplicate_issue_origin pages i :
  In i (auditIssues pages) ->
  type i = "duplicate_titles" \/ type i = "duplicate_meta_descriptions" ->
  In i (checkDuplicates pages).
Proof.
  intros Hin Ht. apply auditIssues_In in Hin.
  destruct Ht as [Ht | Ht];
    destruct Hin as [H | [H | [H | [H | [H | [H | [H | [H | [H | [H | H]]]]]]]]]];
    try assumption;
    first [ other_check checkTitles_kinds
          | other_check checkMetaDescriptions_kinds
          | other_check checkH1Tags_kinds
          | other_check checkImages_kinds
          | other_check checkContent_kinds
          | other_check checkCanonical_kinds
          | other_check checkOpenGraph_kinds
          | other_check checkSchema_kinds
          | other_check checkBrokenLinks_kinds
          | other_check checkSSL_kinds ].
Qed.

Lemma checkDuplicates_types pages :
  ((exists i, In i (checkDuplicates pages) /\ type i = "duplicate_titles")
   <-> Nat.ltb 0 (length (filter (fun e => Nat.ltb 1 (length (snd e)))
                                 (groupPages pageTitle pages))) = true)
  /\ ((exists i, In i (checkDuplicates pages)
                 /\ type i = "duplicate_meta_descriptions")
      <-> Nat.ltb 0 (length (filter (fun e => Nat.ltb 1 (length (snd e)))
                                    (groupPages pageDescription pages)))
          = true).
Proof.
  unfold checkDuplicates. cbn zeta. cbn [app].
  destruct (Nat.ltb 0 (length (filter _ (groupPages pageTitle pages))));
    destruct (Nat.ltb 0
                (length (filter _ (groupPages pageDescription pages))));
    cbn [app]; split; split;
    try (intros _; reflexivity);
    try (intros Hc; discriminate Hc);
    try (intros (i & Hin & Ht); exfalso; cbn in Hin;
         repeat (destruct Hin as [<- | Hin]; [discriminate Ht |]);
         exact Hin);
    intros _;
    solve [ eexists; split; [left; reflexivity | reflexivity]
          | eexists; split; [right; left; reflexivity | reflexivity] ].
Qed.

(** X4. A report holds a [duplicate_titles] issue exactly when two pages
    share a non-empty title, and a [duplicate_meta_descriptions] issue
    exactly when two pages share a non-empty description. *)
Theorem audit_duplicates_reported pages :
  ((exists i, In i (auditIssues pages) /\ type i = "duplicate_titles")
   <-> ~ NoDup (textsOf pageTitle pages))
  /\ ((exists i, In i (auditIssues pages)
                 /\ type i = "duplicate_meta_descriptions")
      <-> ~ NoDup (textsOf pageDescription pages)).
Proof.
  destruct (checkDuplicates_types pages) as [Ht Hd].
  rewrite <- (duplicates_found pageTitle), <- (duplicates_found pageDescription).
  rewrite <- Ht, <- Hd.
  split; split; intros (i & Hin & Hty); exists i; (split; [| exact Hty]);
    try (apply duplicate_issue_origin; [exact Hin | auto]);
    apply auditIssues_In; tauto.
Qed.

(** *** Affected addresses are addresses of audited pages *)

Lemma incl_map_filter {A B} (f : A -> B) (g : A -> bool) (l : list A) :
  incl (map f (filter g l)) (map f l).
Proof.
  intros y Hy. apply in_map_iff in Hy. destruct Hy as (x & <- & Hx).
  apply filter_In in Hx. apply in_map. tauto.
Qed.

Lemma collected_urls (keep : PageAnalysis.t -> bool) pages :
  forall acc,
    fold_left (fun acc page => if keep page then acc ++ [url page] else acc)
              pages acc
    = acc ++ map url (filter keep pages).
Proof.
  induction pages as [| page rest IH]; intros acc; cbn.
  - now rewrite app_nil_r.
  - rewrite IH. destruct (keep page); cbn; [| reflexivity].
    now rewrite <- app_assoc.
Qed.

Lemma grouped_urls text pages :
  incl (flat_map (fun entry => snd entry)
                 (filter (fun e => Nat.ltb 1 (length (snd e)))
                         (groupPages text pages)))
       (map url pages).
Proof.
  intros u Hu. apply in_flat_map in Hu. destruct Hu as ([k urls] & He & Hin).
  apply filter_In in He. destruct He as [He _]. cbn in Hin.
  refine (groupPages_urls text pages [] (map url pages) _ _ k urls He u Hin).
  - intros ? ? [].
  - apply incl_refl.
Qed.

(** X5. Apart from [broken_pages] and [duplicate_titles], whose entries
    carry a status code or a title after the address, every affected
    address of every issue is the address of one of the audited pages. *)
Theorem audit_affected_are_pages pages :
  Forall
    (fun i =>
       type i <> "broken_pages" -> type i <> "duplicate_titles" ->
       incl (affectedUrls i) (map url pages))
    (auditIssues pages).
Proof.
  unfold auditIssues, checkTitles, checkMetaDescriptions, checkH1Tags,
    checkImages, checkContent, checkCanonical, checkOpenGraph, checkSchema,
    checkBrokenLinks, checkSSL, checkDuplicates.
  cbn zeta. cbn [app]. rewrite collected_urls. cbn [app].
  each_issue; by_cases_on_checks; each_issue;
    cbn [affectedUrls type]; intros H1 H2;
    first [ exfalso; apply H1; reflexivity
          | exfalso; apply H2; reflexivity
          | apply incl_map_filter
          | apply grouped_urls ].
Qed.

(** *** A report without issues *)

Lemma push_nil {A} (c : bool) (l : list A) x :
  (if c then l ++ [x] else l) = [] <-> c = false /\ l = [].
Proof.
  destruct c; [| tauto]. split; [| intros [H _]; discriminate H].
  intros H. apply app_eq_nil in H. destruct H as [_ H]. discriminate H.
Qed.

Lemma none_flagged {A} (f : A -> bool) (l : list A) :
  Nat.ltb 0 (length (filter f l)) = false <->
  forall x, In x l -> f x = false.
Proof.
  induction l as [| a l IH]; cbn; [tauto |].
  destruct (f a) eqn:E; cbn.
  - split; [discriminate |]. intros H. rewrite <- E. apply H. now left.
  - rewrite IH. split; [intros H x [<- | Hx]; auto | auto].
Qed.

Lemma none_mapped {A B} (f : A -> bool) (g : A -> B) (l : list A) :
  Nat.ltb 0 (length (map g (filter f l))) = false <->
  forall x, In x l -> f x = false.
Proof. rewrite length_map. apply none_flagged. Qed.

Lemma within_bounds lo hi s :
  0 < lo ->
  (negb (truthyString s) = false /\ shorterThan lo s = false
   /\ longerThan hi s = false)
  <-> lengthWithin lo hi s = true.
Proof.
  intros Hlo. unfold truthyString, shorterThan, longerThan, lengthWithin.
  destruct s as [t |]; [| cbn; intuition discriminate].
  destruct (t =? "")%string eqn:E; cbn [negb andb].
  - apply String.eqb_eq in E. subst t. cbn [String.length].
    destruct lo; [lia |]. cbn. intuition discriminate.
  - rewrite andb_true_iff, Nat.leb_le, Nat.leb_le, !Nat.ltb_ge. tauto.
Qed.

Lemma for_all_and {A} (l : list A) (P Q : A -> Prop) :
  (forall x, In x l -> P x /\ Q x) <->
  (forall x, In x l -> P x) /\ (forall x, In x l -> Q x).
Proof. firstorder. Qed.

Lemma checkTitles_nil pages :
  checkTitles pages = [] <->
  forall p, In p pages -> lengthWithin 30 60 (pageTitle p) = true.
Proof.
  unfold checkTitles. cbn zeta. rewrite !push_nil, !none_flagged.
  split.
  - intros (H3 & H2 & H1 & _) p Hp.
    apply (within_bounds 30 60); [lia | auto].
  - intros H.
    assert (Hall : forall p, In p pages -> _)
      by (intros p Hp;
          exact (proj2 (within_bounds 30 60 _ ltac:(lia)) (H p Hp))).
    repeat split; intros p Hp; apply Hall in Hp; tauto.
Qed.

Lemma checkMetaDescriptions_nil pages :
  checkMetaDescriptions pages = [] <->
  forall p, In p pages -> lengthWithin 120 160 (pageDescription p) = true.
Proof.
  unfold checkMetaDescriptions. cbn zeta. rewrite !push_nil, !none_flagged.
  split.
  - intros (H3 & H2 & H1 & _) p Hp.
    apply (within_bounds 120 160); [lia | auto].
  - intros H.
    assert (Hall : forall p, In p pages -> _)
      by (intros p Hp;
          exact (proj2 (within_bounds 120 160 _ ltac:(lia)) (H p Hp))).
    repeat split; intros p Hp; apply Hall in Hp; tauto.
Qed.

Lemma checkH1Tags_nil pages :
  checkH1Tags pages = [] <->
  forall p, In p pages ->
            Nat.eqb (length (h1Tags (PageAnalysis.content p))) 1 = true.
Proof.
  unfold checkH1Tags. cbn zeta. rewrite !push_nil, !none_flagged.
  split.
  - intros (H2 & H1 & _) p Hp. specialize (H1 p Hp). specialize (H2 p Hp).
    apply Nat.eqb_neq in H1. apply Nat.ltb_ge in H2. apply Nat.eqb_eq. lia.
  - intros H. repeat split; intros p Hp; specialize (H p Hp);
      apply Nat.eqb_eq in H; rewrite H; reflexivity.
Qed.

Lemma checkImages_nil pages :
  checkImages pages = [] <->
  forall p, In p pages ->
            forallb (fun img => truthyString (ImageInfo.alt img))
                    (images (PageAnalysis.content p)) = true.
Proof.
  unfold checkImages. cbn zeta. rewrite collected_urls, push_nil.
  cbn [app]. rewrite none_mapped.
  split.
  - intros [H _] p Hp. specialize (H p Hp).
    pose proof (proj1 (none_flagged _ _) H) as H'.
    apply forallb_forall. intros img Hi. specialize (H' img Hi).
    now apply negb_false_iff.
  - intros H. split; [| reflexivity]. intros p Hp.
    apply (proj2 (none_flagged _ _)).
    intros img Hi. apply negb_false_iff.
    exact (proj1 (forallb_forall _ _) (H p Hp) img Hi).
Qed.

Lemma checkContent_nil pages :
  checkContent pages = [] <->
  forall p, In p pages ->
            (300 <=? wordCount (PageAnalysis.content p))%Z = true.
Proof.
  unfold checkContent. cbn zeta. rewrite push_nil, none_flagged.
  split.
  - intros [H _] p Hp. specialize (H p Hp).
    apply Z.leb_le. apply Z.ltb_ge in H. exact H.
  - intros H. split; [| reflexivity]. intros p Hp.
    apply Z.ltb_ge. apply Z.leb_le. auto.
Qed.

Lemma checkCanonical_nil pages :
  checkCanonical pages = [] <->
  forall p, In p pages ->
            truthyString (canonical (PageAnalysis.content p)) = true.
Proof.
  unfold checkCanonical. cbn zeta. rewrite push_nil, none_flagged.
  split.
  - intros [H _] p Hp. apply negb_false_iff. auto.
  - intros H. split; [| reflexivity]. intros p Hp.
    apply negb_false_iff. auto.
Qed.

Lemma checkOpenGraph_nil pages :
  checkOpenGraph pages = [] <->
  forall p, In p pages ->
            truthyString
              (Record_get (ogTags (PageAnalysis.content p)) "og:title")
            = true
            /\ truthyString
                 (Record_get (ogTags (PageAnalysis.content p))
                             "og:description") = true.
Proof.
  unfold checkOpenGraph. cbn zeta. rewrite push_nil, none_flagged.
  split.
  - intros [H _] p Hp. specialize (H p Hp).
    apply orb_false_iff in H. now rewrite !negb_false_iff in H.
  - intros H. split; [| reflexivity]. intros p Hp.
    destruct (H p Hp) as [-> ->]. reflexivity.
Qed.

Lemma checkSchema_nil pages :
  checkSchema pages = [] <->
  forall p, In p pages ->
            negb (Nat.eqb (length (schemaMarkup (PageAnalysis.content p))) 0)
            = true.
Proof.
  unfold checkSchema. cbn zeta. rewrite push_nil, none_flagged.
  split.
  - intros [H _] p Hp. apply negb_true_iff. auto.
  - intros H. split; [| reflexivity]. intros p Hp.
    apply negb_true_iff. auto.
Qed.

Lemma checkBrokenLinks_nil pages :
  checkBrokenLinks pages = [] <->
  forall p, In p pages ->
            negb ((400 <=? PageAnalysis.statusCode p)%Z
                  && (PageAnalysis.statusCode p <? 600)%Z) = true.
Proof.
  unfold checkBrokenLinks. cbn zeta. rewrite push_nil, none_flagged.
  split.
  - intros [H _] p Hp. apply negb_true_iff. rewrite <- Z.geb_leb. auto.
  - intros H. split; [| reflexivity]. intros p Hp.
    rewrite Z.geb_leb. apply negb_true_iff. auto.
Qed.

Lemma checkSSL_nil pages :
  checkSSL pages = [] <->
  forall p, In p pages ->
            negb (JS.startsWith (PageAnalysis.url p) "http://") = true.
Proof.
  unfold checkSSL. cbn zeta. rewrite push_nil, none_flagged.
  split.
  - intros [H _] p Hp. apply negb_true_iff. exact (H p Hp).
  - intros H. split; [| reflexivity]. intros p Hp.
    apply negb_true_iff. exact (H p Hp).
Qed.

Lemma checkDuplicates_nil pages :
  checkDuplicates pages = [] <->
  NoDup (textsOf pageTitle pages) /\ NoDup (textsOf pageDescription pages).
Proof.
  unfold checkDuplicates. cbn zeta. rewrite !push_nil.
  pose proof (duplicates_found pageTitle pages) as Ht.
  pose proof (duplicates_found pageDescription pages) as Hd.
  destruct (NoDup_dec string_dec (textsOf pageTitle pages));
    destruct (NoDup_dec string_dec (textsOf pageDescription pages));
    destruct (Nat.ltb 0 (length (filter _ (groupPages pageTitle pages))));
    destruct (Nat.ltb 0
                (length (filter _ (groupPages pageDescription pages))));
    intuition (try discriminate; try congruence).
Qed.

Lemma app_nil_iff {A} (l l' : list A) : l ++ l' = [] <-> l = [] /\ l' = [].
Proof.
  split; [apply app_eq_nil | intros [-> ->]; reflexivity].
Qed.

(** X6. A report has no issue at all exactly when every page passes every
    per-page criterion (title of 30 to 60 characters, description of 120 to
    160, exactly one H1, an alt text on every image, 300 words or more, a
    canonical link, both Open Graph tags, some structured data, a status
    outside 400-599, an address that does not begin with [http://]) and no
    two pages share a title or a description. *)
Theorem audit_clean_report pages :
  auditIssues pages = [] <->
  forallb cleanPage pages = true
  /\ NoDup (textsOf pageTitle pages)
  /\ NoDup (textsOf pageDescription pages).
Proof.
  unfold auditIssues. cbn zeta. cbn [app].
  rewrite !app_nil_iff.
  rewrite checkTitles_nil, checkMetaDescriptions_nil, checkH1Tags_nil,
    checkImages_nil, checkContent_nil, checkCanonical_nil,
    checkOpenGraph_nil, checkSchema_nil, checkBrokenLinks_nil, checkSSL_nil,
    checkDuplicates_nil.
  rewrite forallb_forall. unfold cleanPage, pageTitle, pageDescription.
  split.
  - intros ((((((((((H1 & H2) & H3) & H4) & H5) & H6) & H7) & H8) & H9)
              & H10) & H11).
    split; [| exact H11]. intros p Hp.
    destruct (H7 p Hp) as [H7a H7b].
    rewrite (H1 p Hp), (H2 p Hp), (H3 p Hp), (H4 p Hp), (H5 p Hp),
      (H6 p Hp), H7a, H7b, (H8 p Hp), (H9 p Hp), (H10 p Hp).
    reflexivity.
  - intros [H H11].
    repeat split; try tauto; intros;
      match goal with
      | Hp : In ?p pages |- _ => specialize (H p Hp)
      end;
      rewrite !andb_true_iff in H; tauto.
Qed.

End AuditReports.

(** ** More on the crawl *)

Section CrawlFacts.

Variable P : Platform.

(** *** Configuration errors *)

Lemma crawlWithPolicy_never_throws fuel config baseUrl robotsTxt w :
  value (crawlWithPolicy P fuel config baseUrl robotsTxt w) <> Threw.
Proof.
  unfold crawlWithPolicy, bind. cbn [value after].
  destruct (value (seedFrontier P fuel config baseUrl robotsTxt w));
    cbn; discriminate.
Qed.

(** X7. [crawlSite] throws exactly when the seed address is not a URL, and
    then it has loaded nothing: no event, the world untouched. No failure
    of robots.txt, of a sitemap or of a page makes it throw. *)
Theorem crawlSite_throws_on_bad_seed_only fuel config w :
  (value (crawlSite P fuel config w) = Threw
   <-> URL_new P (CrawlConfig.url config) None = None)
  /\ (value (crawlSite P fuel config w) = Threw ->
      trace (crawlSite P fuel config w) = []
      /\ after (crawlSite P fuel config w) = w).
Proof.
  rewrite crawlSite_run. cbn [value after trace]. unfold crawlSiteRun.
  destruct (URL_new P (CrawlConfig.url config) None) as [seed |].
  - unfold bind. cbn [value after trace].
    pose proof (crawlWithPolicy_never_throws fuel config (URL.origin seed)
                  (value (resolvePolicy P config (URL.origin seed) w))
                  (after (resolvePolicy P config (URL.origin seed) w))) as H.
    destruct (value (crawlWithPolicy P fuel config _ _ _));
      split; try split; try discriminate; congruence.
  - cbn. tauto.
Qed.

(** *** An empty policy *)

Lemma seedFrontier_policy fuel config baseUrl r r' :
  sitemaps r = sitemaps r' ->
  seedFrontier P fuel config baseUrl r = seedFrontier P fuel config baseUrl r'.
Proof. intros H. unfold seedFrontier. now rewrite H. Qed.

Lemma crawlWithPolicy_policy fuel config baseUrl r r' w :
  sitemaps r = sitemaps r' -> crawlDelay r = crawlDelay r' ->
  crawlWithPolicy P fuel config baseUrl r w
  = crawlWithPolicy P fuel config baseUrl r' w.
Proof.
  intros Hs Hd. unfold crawlWithPolicy, bind. cbn [value after trace].
  rewrite (seedFrontier_policy fuel config baseUrl r r' Hs).
  destruct (value (seedFrontier P fuel config baseUrl r' w));
    [| reflexivity].
  now rewrite (crawlLoop_policy P r r' _ _ Hd).
Qed.

(** X8. When the robots policy comes out without sitemap and without crawl
    delay (the document could not be fetched, or holds neither directive),
    the crawl goes on from the world the robots fetch left exactly as a
    crawl with [respectRobotsTxt] off does. *)
Theorem crawl_with_empty_policy fuel config w seed :
  URL_new P (CrawlConfig.url config) None = Some seed ->
  sitemaps (value (resolvePolicy P config (URL.origin seed) w)) = [] ->
  crawlDelay (value (resolvePolicy P config (URL.origin seed) w)) = None ->
  let p := resolvePolicy P config (URL.origin seed) w in
  let o := crawlSiteRun P fuel (withoutRobots config) (after p) in
  crawlSiteRun P fuel config w =
  mkOut (value o) (after o) (trace p ++ trace o).
Proof.
  intros Hseed Hs Hd. cbn zeta. unfold crawlSiteRun.
  cbn [withoutRobots CrawlConfig.url]. rewrite Hseed.
  unfold bind. cbn [value after trace].
  change (resolvePolicy P (withoutRobots config) (URL.origin seed))
    with (@ret P RobotsTxt emptyRobotsTxt).
  cbn [ret value after trace app].
  rewrite (crawlWithPolicy_policy fuel config (URL.origin seed)
             (value (resolvePolicy P config (URL.origin seed) w))
             emptyRobotsTxt _ Hs Hd).
  reflexivity.
Qed.

(** *** What the loop loads *)

Lemma loads_app t1 t2 : loads (t1 ++ t2) = loads t1 ++ loads t2.
Proof. unfold loads. apply flat_map_app. Qed.

Lemma loads_turns delay attempts :
  loads (flat_map (turnEvents delay) attempts) = map fst attempts.
Proof.
  induction attempts as [| [u b] l IH]; [reflexivity |].
  cbn [flat_map]. rewrite loads_app, IH. now destruct b.
Qed.

(** X9. The loop of a crawl loads a prefix of the seeded set, in the order
    of the set and each address once: an address that only a link
    discovered is never loaded. *)
Theorem crawl_loads_seeded_prefix fuel config w robotsTxt seeded :
  value (crawlPrepare P fuel config w) = Returned (robotsTxt, seeded) ->
  exists loopTrace rest,
    trace (crawlSite P fuel config w)
    = trace (crawlPrepare P fuel config w) ++ loopTrace
    /\ seeded = loads loopTrace ++ rest
    /\ NoDup (loads loopTrace).
Proof.
  intros Hp.
  destruct (crawlSiteRun_attempts P _ _ _ _ _ Hp)
    as (st & attempts & rest & _ & Hs & Ht & _).
  exists (flat_map (turnEvents (politenessDelay robotsTxt)) attempts), rest.
  rewrite crawlSite_run. cbn [trace]. rewrite loads_turns.
  repeat split; auto.
  pose proof (crawlPrepare_NoDup P _ _ _ _ _ Hp) as Hnd.
  rewrite Hs in Hnd. exact (NoDup_app_remove_r _ _ Hnd).
Qed.

(** *** How often a crawl sleeps *)






(** *** The seed comes first *)

Lemma Set_add_head x s y : exists s', JS.Set_add (x :: s) y = x :: s'.
Proof.
  unfold JS.Set_add. destruct (JS.Set_has (x :: s) y); cbn; eauto.
Qed.

Lemma Set_addAll_head l :
  forall x s, exists s', JS.Set_addAll (x :: s) l = x :: s'.
Proof.
  unfold JS.Set_addAll.
  induction l as [| y l IH]; intros x s; cbn; [eauto |].
  destruct (Set_add_head x s y) as [s' ->]. apply IH.
Qed.

Lemma seedFromSitemaps_head fuel sitemapUrls :
  forall x s w seeded,
    value (seedFromSitemaps P fuel sitemapUrls (x :: s) w) = Some seeded ->
    exists rest, seeded = x :: rest.
Proof.
  induction sitemapUrls as [| u l IH]; intros x s w seeded; cbn.
  - intros [= <-]. eauto.
  - destruct (value (fetchSitemap P fuel u w)) as [urls |]; cbn;
      [| discriminate].
    destruct (Set_addAll_head urls x s) as [s' ->]. apply IH.
Qed.

Lemma crawlPrepare_head fuel config w robotsTxt seeded :
  value (crawlPrepare P fuel config w) = Returned (robotsTxt, seeded) ->
  exists rest, seeded = CrawlConfig.url config :: rest.
Proof.
  unfold crawlPrepare.
  destruct (URL_new P (CrawlConfig.url config) None); [| discriminate].
  cbn. unfold seedFrontier.
  destruct (orDefault true (CrawlConfig.followSitemap config)).
  - destruct (value (seedFromSitemaps P fuel _ _ _)) as [s |] eqn:E;
      [| discriminate].
    intros [= _ <-]. exact (seedFromSitemaps_head _ _ _ _ _ _ E).
  - cbn. intros [= _ <-]. eauto.
Qed.

(** X11. With room for at least one page, the first page a crawl loads is
    the seed address itself, whatever the sitemaps list. *)
Theorem crawl_starts_with_seed fuel config w robotsTxt seeded :
  value (crawlPrepare P fuel config w) = Returned (robotsTxt, seeded) ->
  0 < orDefault 100 (CrawlConfig.maxPages config) ->
  exists rest,
    trace (crawlSite P fuel config w)
    = trace (crawlPrepare P fuel config w)
      ++ Fetch (CrawlConfig.url config) :: rest.
Proof.
  intros Hp Hmax. destruct (crawlPrepare_head _ _ _ _ _ Hp) as [rest ->].
  rewrite crawlSite_run. cbn [trace].
  rewrite (crawlSiteRun_prepared P _ _ _ _ _ Hp). cbn [trace].
  cbn [crawlLoop crawledUrls length JS.Set_has existsb].
  destruct (Z.of_nat 0 >=? orDefault 100 (CrawlConfig.maxPages config)) eqn:E;
    [rewrite Z.geb_leb in E; apply Z.leb_le in E; cbn in E; lia |].
  unfold bind at 1. cbn [trace]. rewrite analyzePage_trace. cbn [app].
  eauto.
Qed.

(** X12. With a page budget of zero or less, a crawl loads no page and
    returns the empty list. *)
Theorem crawl_without_budget fuel config w robotsTxt seeded :
  value (crawlPrepare P fuel config w) = Returned (robotsTxt, seeded) ->
  orDefault 100 (CrawlConfig.maxPages config) <= 0 ->
  value (crawlSite P fuel config w) = Returned []
  /\ trace (crawlSite P fuel config w)
     = trace (crawlPrepare P fuel config w).
Proof.
  intros Hp Hmax. destruct (crawlPrepare_head _ _ _ _ _ Hp) as [rest ->].
  rewrite crawlSite_run. cbn [value trace].
  rewrite (crawlSiteRun_prepared P _ _ _ _ _ Hp). cbn [value trace final].
  rewrite crawlLoop_stop;
    [cbn; now rewrite app_nil_r |].
  cbn. apply Z.geb_le. lia.
Qed.

(** *** What a page adds to the frontier *)

Lemma offerLink_In pageUrl crawled toCrawl link x :
  In x (offerLink P pageUrl crawled toCrawl link) <->
  In x toCrawl
  \/ exists u,
       URL_new P (LinkInfo.href link) (Some pageUrl) = Some u
       /\ URL.href u = x /\ ~ In x crawled.
Proof.
  unfold offerLink.
  destruct (URL_new P (LinkInfo.href link) (Some pageUrl)) as [u |];
    [| split; [tauto | intros [H | (u & Hu & _)]; [exact H | discriminate]]].
  destruct (JS.Set_has crawled (URL.href u)) eqn:E; cbn [negb].
  - apply Set_has_In in E. split; [tauto |].
    intros [H | (u' & [= <-] & <- & Hn)]; [exact H | contradiction].
  - apply Set_has_notIn in E. rewrite Set_add_In. split.
    + intros [H | ->]; [now left | right; eauto].
    + intros [H | (u' & [= <-] & <- & _)]; auto.
Qed.

Lemma offerLinks_In pageUrl crawled links x :
  forall toCrawl,
    In x (fold_left (offerLink P pageUrl crawled) links toCrawl) <->
    In x toCrawl
    \/ exists link u,
         In link links
         /\ URL_new P (LinkInfo.href link) (Some pageUrl) = Some u
         /\ URL.href u = x /\ ~ In x crawled.
Proof.
  induction links as [| link rest IH]; intros toCrawl; cbn [fold_left].
  - split; [tauto | intros [H | (l & u & [] & _)]; exact H].
  - rewrite IH, offerLink_In. split.
    + intros [[H | (u & Hu & Hx & Hn)] | (l & u & Hl & Hu & Hx & Hn)];
        [now left | right | right].
      * exists link, u. cbn. auto.
      * exists l, u. cbn. auto.
    + intros [H | (l & u & [<- | Hl] & Hu & Hx & Hn)];
        [now left; left | left; right; eauto | right; eauto 6].
Qed.

(** X13. Recording an analysed page adds to [urlsToCrawl] exactly the
    addresses that some link of the page resolves to, when that link is
    internal and not nofollow and the address is neither the page's own
    nor already crawled; nothing is ever removed. *)
Theorem recordPage_frontier pageUrl analysis st x :
  In x (urlsToCrawl (recordPage P pageUrl analysis st)) <->
  In x (urlsToCrawl st)
  \/ exists link u,
       In link (PageAnalysis.links analysis)
       /\ LinkInfo.isInternal link = true
       /\ LinkInfo.isNofollow link = false
       /\ URL_new P (LinkInfo.href link) (Some pageUrl) = Some u
       /\ URL.href u = x
       /\ x <> pageUrl
       /\ ~ In x (crawledUrls st).
Proof.
  unfold recordPage. cbn [urlsToCrawl]. rewrite offerLinks_In. split.
  - intros [H | (link & u & Hl & Hu & Hx & Hn)]; [now left | right].
    apply filter_In in Hl. destruct Hl as [Hl Hf].
    unfold followed in Hf. apply andb_true_iff in Hf.
    destruct Hf as [Hi Hf]. apply negb_true_iff in Hf.
    rewrite Set_add_In in Hn.
    exists link, u. repeat split; auto.
  - intros [H | (link & u & Hl & Hi & Hf & Hu & Hx & Hne & Hn)];
      [now left | right].
    exists link, u. repeat split; auto.
    + apply filter_In. split; [exact Hl |].
      unfold followed. now rewrite Hi, Hf.
    + rewrite Set_add_In. tauto.
Qed.

(** *** Without sitemaps *)

Lemma crawlPrepare_without_sitemap fuel config w seed :
  URL_new P (CrawlConfig.url config) None = Some seed ->
  orDefault true (CrawlConfig.followSitemap config) = false ->
  value (crawlPrepare P fuel config w)
  = Returned (value (resolvePolicy P config (URL.origin seed) w),
              [CrawlConfig.url config]).
Proof.
  intros Hs Hf. unfold crawlPrepare, seedFrontier. rewrite Hs, Hf.
  reflexivity.
Qed.

(** X18. With [followSitemap] off and a valid seed address, a crawl
    returns whatever the fuel, with one page at most, and that page is the
    seed address: links found on it are not followed. *)
Theorem crawl_without_sitemap_is_one_page fuel config w seed :
  URL_new P (CrawlConfig.url config) None = Some seed ->
  orDefault true (CrawlConfig.followSitemap config) = false ->
  exists pages,
    value (crawlSite P fuel config w) = Returned pages
    /\ (length pages <= 1)%nat
    /\ forall page, In page pages ->
                    PageAnalysis.url page = CrawlConfig.url config.
Proof.
  intros Hs Hf.
  pose proof (crawlPrepare_without_sitemap fuel config w seed Hs Hf) as Hp.
  destruct (crawlSiteRun_attempts P _ _ _ _ _ Hp)
    as (st & attempts & rest & Hv & Hseed & _ & Hu & _).
  exists (results st). rewrite crawlSite_run. cbn [value]. rewrite Hv.
  cbn [final]. split; [reflexivity |].
  assert (Hin : forall u, In u (succeeded attempts) ->
                          u = CrawlConfig.url config).
  { intros u Hin. apply succeeded_incl in Hin.
    assert (H : In u (map fst attempts ++ rest))
      by (apply in_or_app; now left).
    rewrite <- Hseed in H. destruct H as [<- | []]. reflexivity. }
  split.
  - rewrite <- (length_map PageAnalysis.url), Hu.
    unfold succeeded. rewrite length_map.
    apply (f_equal (@length string)) in Hseed.
    rewrite length_app, length_map in Hseed. cbn in Hseed.
    pose proof (filter_length_le snd attempts). lia.
  - intros page Hpage. apply Hin. rewrite <- Hu. now apply in_map.
Qed.

(** *** A sitemap index that lists itself *)

(** X14. When the document at a sitemap address is, whenever it is fetched,
    an index whose first entry is that same address, [fetchSitemap] never
    returns: whatever the fuel, the recursion is cut before an answer. *)
Theorem fetchSitemap_self_reference sitemapUrl :
  (forall w, exists f w' rest,
      browse P sitemapUrl None 30000 w = (Some f, w')
      /\ Nat.ltb 0 (sitemap_length (cheerio_xml P (html f))) = true
      /\ map JS.trim (sitemap_loc (cheerio_xml P (html f)))
         ++ map JS.trim (url_loc (cheerio_xml P (html f)))
         = sitemapUrl :: rest) ->
  forall fuel w, value (fetchSitemap P fuel sitemapUrl w) = None.
Proof.
  intros Hself. induction fuel as [| fuel IH]; intros w; [reflexivity |].
  destruct (Hself w) as (f & w' & rest & Hb & Hi & Hu).
  rewrite (fetchSitemap_index_children P fuel sitemapUrl w f w' Hb Hi).
  cbn [value]. rewrite Hu. cbn [fetchChildren]. unfold bind.
  cbn [value after]. now rewrite IH.
Qed.

End CrawlFacts.

(** ** More on robots.txt *)

Lemma startsWith_sitemap_not_disallow s :
  JS.startsWith s "sitemap:" = true -> JS.startsWith s "disallow:" = false.
Proof.
  unfold JS.startsWith. destruct s as [| c s]; [discriminate |].
  cbn [String.prefix].
  destruct (ascii_dec "s" c) as [<- | _]; [reflexivity | discriminate].
Qed.

Lemma robotsLine_lists r line :
  sitemaps (robotsLine r line)
  = sitemaps r ++ (if isSitemapLine line then [sitemapText line] else [])
  /\ disallowed (robotsLine r line)
     = disallowed r
       ++ (if isDisallowLine line then [disallowText line] else []).
Proof.
  unfold robotsLine, isSitemapLine, isDisallowLine, sitemapText,
    disallowText.
  destruct (JS.startsWith _ "sitemap:") eqn:Es.
  - rewrite (startsWith_sitemap_not_disallow _ Es). cbn.
    now rewrite app_nil_r.
  - destruct (JS.startsWith _ "disallow:") eqn:Ed; cbn;
      [now rewrite app_nil_r |].
    destruct (JS.startsWith _ "crawl-delay:"); cbn; now rewrite !app_nil_r.
Qed.

Lemma fold_robotsLine_lists lines :
  forall r,
    sitemaps (fold_left robotsLine lines r)
    = sitemaps r ++ map sitemapText (filter isSitemapLine lines)
    /\ disallowed (fold_left robotsLine lines r)
       = disallowed r ++ map disallowText (filter isDisallowLine lines).
Proof.
  induction lines as [| line rest IH]; intros r; cbn [fold_left filter map].
  - now rewrite !app_nil_r.
  - destruct (IH (robotsLine r line)) as [-> ->].
    destruct (robotsLine_lists r line) as [-> ->].
    destruct (isSitemapLine line), (isDisallowLine line); cbn [map];
      rewrite <- ?app_assoc, ?app_nil_r; auto.
Qed.

(** X15. The policy lists one sitemap per line that begins with
    [sitemap:], whatever the case of the directive, and one disallow
    pattern per line that begins with [disallow:], each trimmed and all in
    the order of the document; no other line contributes. *)
Theorem robots_directives_accumulate html :
  sitemaps (parseRobotsTxt html)
  = map sitemapText (filter isSitemapLine (JS.splitLines html))
  /\ disallowed (parseRobotsTxt html)
     = map disallowText (filter isDisallowLine (JS.splitLines html)).
Proof.
  unfold parseRobotsTxt, parseRobotsLines.
  exact (fold_robotsLine_lists (JS.splitLines html) emptyRobotsTxt).
Qed.

(** *** Decimal crawl delays *)

Lemma parseDigits_decimal d :
  forall a,
    JS.parseDigits 10 (NilEmpty.string_of_uint d) (Some (Z.of_nat a))
    = Some (Z.of_nat (Nat.of_uint_acc d a)).
Proof.
  induction d; intros a; cbn [NilEmpty.string_of_uint Nat.of_uint_acc];
    [reflexivity | ..];
    cbn [JS.parseDigits];
    match goal with
    | |- context [JS.digitOf 10 ?c] =>
        let v := eval vm_compute in (JS.digitOf 10 c) in
        change (JS.digitOf 10 c) with v
    end;
    cbv beta iota;
    match goal with
    | |- JS.parseDigits 10 _ (Some ?z)
         = Some (Z.of_nat (Nat.of_uint_acc _ ?n)) =>
        replace z with (Z.of_nat n) by (rewrite Nat.tail_mul_spec; lia)
    end;
    apply IHd.
Qed.

Lemma to_uint_not_Nil n : Nat.to_uint n <> Decimal.Nil.
Proof.
  intros H. pose proof (Unsigned.of_to n) as Hn. rewrite H in Hn.
  cbn in Hn. subst n. discriminate H.
Qed.

Lemma toNumber_exact z : 0 <= z < 2 ^ 53 -> JS.toNumber z = z.
Proof.
  intros H. unfold JS.toNumber, JS.nearestDouble.
  destruct (z <? 0) eqn:Hneg; [apply Z.ltb_lt in Hneg; lia |].
  cbv zeta. destruct (Z.log2 z + 1 <=? 53) eqn:E; [reflexivity |].
  apply Z.leb_gt in E.
  destruct (Z.eq_dec z 0) as [-> | Hz]; [cbn in E; lia |].
  assert (Z.log2 z < 53) by (apply Z.log2_lt_pow2; lia). lia.
Qed.

Ltac read_digits :=
  match goal with
  | |- JS.parseInt _ = Some (Z.of_nat (Nat.of_uint_acc ?d ?a)) =>
      transitivity
        (option_map (fun mathInt => JS.toNumber (1 * mathInt))
           (JS.parseDigits 10 (NilEmpty.string_of_uint d)
                           (Some (Z.of_nat a))));
      [ reflexivity
      | rewrite parseDigits_decimal; cbn [option_map]; f_equal;
        rewrite Z.mul_1_l; apply toNumber_exact; lia ]
  end.

(** [parseInt] reads back the decimal numeral of a natural number that is
    a double. *)
Lemma parseInt_decimal n :
  Z.of_nat n < 2 ^ 53 ->
  JS.parseInt (Audit.natToString n) = Some (Z.of_nat n).
Proof.
  intros Hb. unfold Audit.natToString.
  pose proof (to_uint_not_Nil n) as Hnil.
  pose proof (Unsigned.of_to n) as Hn. unfold Nat.of_uint in Hn.
  destruct (Nat.to_uint n) as [| d | d | d | d | d | d | d | d | d | d];
    [congruence | destruct d | ..];
    rewrite <- Hn in Hb |- *;
    cbn [NilZero.string_of_uint NilEmpty.string_of_uint Nat.of_uint_acc]
      in Hb |- *;
    first [read_digits | reflexivity].
Qed.

(** Beyond [2^53] [parseInt] rounds: to the even neighbour on a tie, to
    the nearer one otherwise. *)
Example parseInt_rounds_long_numerals :
  JS.parseInt "9007199254740993" = Some 9007199254740992
  /\ JS.parseInt "9007199254740995" = Some 9007199254740996
  /\ JS.parseInt "9007199254740991" = Some 9007199254740991
  /\ JS.parseInt "-9007199254740993" = Some (-9007199254740992).
Proof. repeat split; vm_compute; reflexivity. Qed.

(** X16. When the last [crawl-delay:] line of a robots document carries
    the decimal numeral of a positive number [n] of seconds that the timer
    can hold in milliseconds ([n * 1000] at most [2^31 - 1]), the policy's
    crawl delay is [n] and the politeness sleep is called with
    [n * 1000]. *)
Theorem crawlDelay_decimal html line n :
  lastCrawlDelayLine (JS.splitLines html) = Some line ->
  crawlDelayText line = Audit.natToString n ->
  (0 < n)%nat ->
  Z.of_nat n * 1000 <= 2147483647 ->
  crawlDelay (parseRobotsTxt html) = Some (Z.of_nat n)
  /\ politenessDelay (parseRobotsTxt html) = Z.of_nat n * 1000.
Proof.
  intros Hl Ht Hn Hmax.
  assert (Hd : crawlDelay (parseRobotsTxt html) = Some (Z.of_nat n)).
  { rewrite parseRobotsTxt_crawlDelay, Hl, Ht, parseInt_decimal by lia.
    destruct n; [lia | reflexivity]. }
  split; [exact Hd |]. unfold politenessDelay. rewrite Hd.
  destruct n; [lia | reflexivity].
Qed.

(** ** The word count of a page *)

Section WordCount.

Import Words.
Local Open Scope nat_scope.

Lemma countWords_collapse s :
  (forall w, countWords w (collapseFrom false s) = countWords w s)
  /\ countWords false (collapseFrom true s) = countWords false s.
Proof.
  induction s as [| c s [IHf IHt]]; [split; reflexivity |].
  cbn [collapseFrom countWords]. destruct (JS.isWhiteSpace c) eqn:E.
  - split; [intros w |]; cbn [countWords]; [| exact IHt].
    change (JS.isWhiteSpace " ") with true. cbv iota. exact IHt.
  - split; [intros w |]; cbn [countWords]; rewrite E, IHf; reflexivity.
Qed.

Lemma spacesOnly_collapse s : forall b, spacesOnly (collapseFrom b s).
Proof.
  induction s as [| c s IH]; intros b; cbn [collapseFrom]; [exact I |].
  destruct (JS.isWhiteSpace c) eqn:E.
  - destruct b; [apply IH |]. cbn. split; [reflexivity | apply IH].
  - cbn. split; [congruence | apply IH].
Qed.

Lemma countWords_trimStart s :
  countWords false (JS.trimStart s) = countWords false s.
Proof.
  induction s as [| c s IH]; [reflexivity |].
  cbn [JS.trimStart countWords].
  destruct (JS.isWhiteSpace c) eqn:E; [exact IH |].
  cbn [countWords]. now rewrite E.
Qed.

Lemma spacesOnly_trimStart s : spacesOnly s -> spacesOnly (JS.trimStart s).
Proof.
  induction s as [| c s IH]; [auto |]. cbn [JS.trimStart].
  destruct (JS.isWhiteSpace c); [| auto]. intros [_ H]. auto.
Qed.

Lemma countWords_trimEnd s :
  forall w, countWords w (JS.trimEnd s) = countWords w s.
Proof.
  induction s as [| c s IH]; intros w; [reflexivity |].
  cbn [JS.trimEnd countWords].
  destruct (JS.isWhiteSpace c) eqn:E; cbn [andb].
  - destruct (JS.trimEnd s =? "")%string eqn:Et.
    + apply String.eqb_eq in Et. rewrite <- IH, Et. reflexivity.
    + cbn [countWords]. rewrite E. apply IH.
  - cbn [countWords]. rewrite E, IH. reflexivity.
Qed.

Lemma spacesOnly_trimEnd s : spacesOnly s -> spacesOnly (JS.trimEnd s).
Proof.
  induction s as [| c s IH]; [auto |]. cbn [JS.trimEnd]. intros [Hc Hs].
  destruct (JS.isWhiteSpace c && (JS.trimEnd s =? "")%string); cbn; auto.
Qed.

Lemma splitSpaces_count s :
  spacesOnly s ->
  exists l ls,
    splitSpaces s = l :: ls
    /\ countWords true s
       = length (filter (fun w => Nat.ltb 0 (String.length w)) ls)
    /\ countWords false s
       = (if Nat.ltb 0 (String.length l) then 1 else 0)
         + length (filter (fun w => Nat.ltb 0 (String.length w)) ls).
Proof.
  induction s as [| c s IH]; [intros _; exists EmptyString, []; auto |].
  intros [Hc Hs]. destruct (IH Hs) as (l & ls & Hsp & Ht & Hf).
  cbn [splitSpaces countWords]. rewrite Hsp.
  destruct (Ascii.eqb c " ") eqn:E.
  - apply Ascii.eqb_eq in E. subst c.
    change (JS.isWhiteSpace " ") with true. cbv iota.
    exists EmptyString, (l :: ls). cbn [filter String.length].
    destruct (Nat.ltb 0 (String.length l)); cbn [length] in *;
      repeat split; change (Nat.ltb 0 0) with false; cbv iota; lia.
  - destruct (JS.isWhiteSpace c) eqn:Ew.
    + rewrite (Hc eq_refl) in E. discriminate E.
    + exists (String c l), ls.
      repeat split; first [lia | rewrite Ht; reflexivity].
Qed.

(** X17. The word count of a page is the number of maximal runs of
    characters that are not white space in the text of its body: tabs,
    line breaks and repeated or leading or trailing spaces change
    nothing. *)
Theorem wordCount_counts_words body :
  wordCountOf body = countWords false body.
Proof.
  unfold wordCountOf, collapseWhiteSpace, JS.trim. cbn zeta.
  destruct (splitSpaces_count
              (JS.trimEnd (JS.trimStart (collapseFrom false body))))
    as (l & ls & -> & _ & Hf).
  { apply spacesOnly_trimEnd, spacesOnly_trimStart, spacesOnly_collapse. }
  rewrite countWords_trimEnd, countWords_trimStart in Hf.
  rewrite (proj1 (countWords_collapse body)) in Hf. rewrite Hf.
  cbn [filter]. destruct (Nat.ltb 0 (String.length l)); reflexivity.
Qed.

End WordCount.

(** ** More runs on the sample webs *)

Module MoreRuns.

Import Sample.

Ltac run := vm_compute; reflexivity.

(** The audit of the two pages the sitemap crawl returns. *)
Example audit_of_sitemap_crawl :
  map (fun i => (Audit.type i, Audit.message i))
      (Audit.auditIssues [homeAnalysis; foreignAnalysis])
  = [("missing_title", "2 page(s) missing title tag");
     ("missing_meta_description", "2 page(s) missing meta description");
     ("missing_h1", "2 page(s) missing H1 tag");
     ("thin_content", "2 page(s) with less than 300 words");
     ("missing_canonical", "2 page(s) missing canonical tag");
     ("missing_open_graph", "2 page(s) missing Open Graph tags");
     ("missing_schema", "2 page(s) missing structured data (schema.org)")]
  /\ Audit.auditSummary (Audit.auditIssues [homeAnalysis; foreignAnalysis])
     = Audit.mkSummary 3 1 3.
Proof. split; run. Qed.

Example words_of_a_body :
  Words.wordCountOf ("  Suits " ++ String JS.LF "  and   ties  ") = 3%nat.
Proof. run. Qed.

Lemma crawl_with_empty_policy_witness :
  let p := resolvePolicy web Polite.config "https://example.com" 0%nat in
  let o := crawlSiteRun web 5 (withoutRobots Polite.config) (after p) in
  crawlSiteRun web 5 Polite.config 0%nat =
  mkOut (value o) (after o) (trace p ++ trace o).
Proof.
  apply (crawl_with_empty_policy web 5 Polite.config 0%nat Polite.seed).
  - vm_compute. reflexivity.
  - vm_compute. reflexivity.
  - vm_compute. reflexivity.
Defined.

Lemma crawl_loads_seeded_prefix_witness :
  exists loopTrace rest,
    trace (crawlSite web 5 (config 10 true) 0%nat)
    = trace (crawlPrepare web 5 (config 10 true) 0%nat) ++ loopTrace
    /\ seededFromSitemap = loads loopTrace ++ rest
    /\ NoDup (loads loopTrace).
Proof.
  apply (crawl_loads_seeded_prefix web 5 (config 10 true) 0%nat
           emptyRobotsTxt seededFromSitemap).
  vm_compute. reflexivity.
Defined.


Lemma crawl_starts_with_seed_witness :
  exists rest,
    trace (crawlSite web 5 (config 10 true) 0%nat)
    = trace (crawlPrepare web 5 (config 10 true) 0%nat)
      ++ Fetch "https://example.com/" :: rest.
Proof.
  apply (crawl_starts_with_seed web 5 (config 10 true) 0%nat
           emptyRobotsTxt seededFromSitemap).
  - vm_compute. reflexivity.
  - vm_compute. reflexivity.
Defined.

Lemma crawl_without_budget_witness :
  value (crawlSite web 5 (config 0 true) 0%nat) = Returned []
  /\ trace (crawlSite web 5 (config 0 true) 0%nat)
     = trace (crawlPrepare web 5 (config 0 true) 0%nat).
Proof.
  apply (crawl_without_budget web 5 (config 0 true) 0%nat
           emptyRobotsTxt seededFromSitemap).
  - vm_compute. reflexivity.
  - vm_compute. discriminate.
Defined.

Lemma crawl_without_sitemap_is_one_page_witness :
  exists pages,
    value (crawlSite web 0 (config 10 false) 0%nat) = Returned pages
    /\ (length pages <= 1)%nat
    /\ forall page, In page pages ->
                    PageAnalysis.url page = "https://example.com/".
Proof.
  apply (crawl_without_sitemap_is_one_page web 0 (config 10 false) 0%nat
           Polite.seed).
  - vm_compute. reflexivity.
  - vm_compute. reflexivity.
Defined.

Lemma fetchSitemap_self_reference_witness :
  value (fetchSitemap Looping.web 1000
           "https://loop.example/sitemap.xml" tt) = None.
Proof.
  refine (fetchSitemap_self_reference Looping.web
            "https://loop.example/sitemap.xml" _ 1000%nat tt).
  intros w. exists (mkFetchResult Looping.selfXml 200 10), tt, [].
  repeat split; vm_compute; reflexivity.
Defined.

Lemma crawlDelay_decimal_witness :
  crawlDelay (parseRobotsTxt Polite.robots) = Some (Z.of_nat 12)
  /\ politenessDelay (parseRobotsTxt Polite.robots) = Z.of_nat 12 * 1000.
Proof.
  apply (crawlDelay_decimal Polite.robots "CRAWL-DELAY: 12" 12).
  - vm_compute. reflexivity.
  - vm_compute. reflexivity.
  - lia.
  - vm_compute. discriminate.
Defined.

(** The sample robots document, directive by directive. *)
Example polite_robots_policy :
  parseRobotsTxt Polite.robots
  = mkRobotsTxt ["https://example.com/a.xml"; "https://example.com/b.xml"]
                ["/tmp"] (Some 12).
Proof. run. Qed.

End MoreRuns.
